(** * Photo Upload API (server.js): a shallow embedding and its properties

    The development follows [server.js] top-down: the JavaScript string and
    number primitives the file uses, the MD5 digest and hex encoding behind
    [crypto], [generateUniqueFilename], the multer upload middleware as
    configured by the file, the storage gateway, the three route handlers,
    the error-handling middleware and the Express dispatch that ties them
    together.

    Conventions.
    - A JavaScript string is represented by its UTF-8 encoding, one [ascii]
      per byte: these are the bytes [hash.update] digests.  The character
      ['.'] is a single byte that never occurs inside a longer UTF-8
      sequence, so [split('.')] and concatenation commute with the encoding.
    - [Date.now()] and [crypto.randomBytes(8)] read the environment; here
      they are explicit arguments ([now], in milliseconds since the epoch,
      and [random], the bytes drawn).
    - A request is a method, a path (without query string), the file
      parts of its multipart body, and what the libraries in front of the
      routes make of it: the error a body parser raises on it, if any, and
      whether Express finds it a fresh conditional request.  A response is
      a status code and a body.
    - The storage service is external.  The log of the calls the handlers
      make is what the code does; the bucket behind it follows section 4.2
      of the specification. *)

From Stdlib Require Import NArith ZArith Ascii String List Lia.
From Stdlib Require Import DecimalString DecimalN.
From stdpp Require Import base strings list gmap.

Local Open Scope N_scope.
#[local] Arguments String.append !s1 s2 : simpl nomatch.

(* ===================================================================== *)
(** ** JavaScript primitives used by server.js *)
(* ===================================================================== *)

(** [s.split(sep)] for a one-character separator: the pieces between the
    occurrences of [sep], in order; never the empty array. *)
Fixpoint split (sep : ascii) (s : string) : list string :=
  match s with
  | EmptyString => [EmptyString]
  | String c rest =>
      if Ascii.eqb c sep then EmptyString :: split sep rest
      else match split sep rest with
           | piece :: pieces => String c piece :: pieces
           | [] => [String c EmptyString]
           end
  end.

(** [a.pop()]: the last element, [None] (undefined) on the empty array. *)
Fixpoint pop (a : list string) : option string :=
  match a with
  | [] => None
  | [x] => Some x
  | _ :: rest => pop rest
  end.

(** [v || d] on an optional string: [undefined] and [""] are falsy. *)
Definition or_default (v : option string) (d : string) : string :=
  match v with
  | Some (String c s) => String c s
  | Some EmptyString => d
  | None => d
  end.

(** Number-to-string conversion of a non-negative integer, as string
    concatenation and template literals perform it.  JavaScript prints
    integers below 10^21 in plain decimal; every time value is below
    8.64 * 10^15. *)
Definition Number_toString (n : N) : string :=
  NilZero.string_of_uint (N.to_uint n).

(** [s.substring(0, n)]. *)
Definition substring_from0 (n : nat) (s : string) : string :=
  String.substring 0 n s.

(** [s.startsWith(p)]. *)
Definition startsWith (p s : string) : bool := String.prefix p s.

(** The bytes [hash.update(s)] feeds to the digest. *)
Definition utf8_bytes (s : string) : list N :=
  map Byte.to_N (list_byte_of_string s).

(* ===================================================================== *)
(** ** Hex encoding: [buffer.toString('hex')] and [digest('hex')] *)
(* ===================================================================== *)

Definition hex_digit (n : N) : ascii :=
  let d := n mod 16 in
  if d <? 10 then ascii_of_N (48 + d) else ascii_of_N (87 + d).

Definition hex_of_octet (b : N) : string :=
  String (hex_digit (b / 16)) (String (hex_digit b) EmptyString).

Fixpoint hex_of_octets (bs : list N) : string :=
  match bs with
  | [] => EmptyString
  | b :: rest => hex_of_octet b +:+ hex_of_octets rest
  end.

Definition Buffer_toString_hex (buf : list Byte.byte) : string :=
  hex_of_octets (map Byte.to_N buf).

(* ===================================================================== *)
(** ** MD5 (RFC 1321), as [crypto.createHash('md5')] computes it *)
(* ===================================================================== *)

Module MD5.

Definition wrap (x : N) : N := x mod 2 ^ 32.
Definition add32 (a b : N) : N := wrap (a + b).
Definition not32 (x : N) : N := N.lxor (wrap x) 0xffffffff.
Definition rotl (x c : N) : N :=
  wrap (N.lor (N.shiftl x c) (N.shiftr (wrap x) (32 - c))).

(** Per-round shift amounts. *)
Definition S_ : list N :=
  [ 7; 12; 17; 22;  7; 12; 17; 22;  7; 12; 17; 22;  7; 12; 17; 22;
    5;  9; 14; 20;  5;  9; 14; 20;  5;  9; 14; 20;  5;  9; 14; 20;
    4; 11; 16; 23;  4; 11; 16; 23;  4; 11; 16; 23;  4; 11; 16; 23;
    6; 10; 15; 21;  6; 10; 15; 21;  6; 10; 15; 21;  6; 10; 15; 21 ].

(** K[i] = floor(2^32 * |sin(i + 1)|). *)
Definition K_ : list N :=
  [ 0xd76aa478; 0xe8c7b756; 0x242070db; 0xc1bdceee;
    0xf57c0faf; 0x4787c62a; 0xa8304613; 0xfd469501;
    0x698098d8; 0x8b44f7af; 0xffff5bb1; 0x895cd7be;
    0x6b901122; 0xfd987193; 0xa679438e; 0x49b40821;
    0xf61e2562; 0xc040b340; 0x265e5a51; 0xe9b6c7aa;
    0xd62f105d; 0x02441453; 0xd8a1e681; 0xe7d3fbc8;
    0x21e1cde6; 0xc33707d6; 0xf4d50d87; 0x455a14ed;
    0xa9e3e905; 0xfcefa3f8; 0x676f02d9; 0x8d2a4c8a;
    0xfffa3942; 0x8771f681; 0x6d9d6122; 0xfde5380c;
    0xa4beea44; 0x4bdecfa9; 0xf6bb4b60; 0xbebfbc70;
    0x289b7ec6; 0xeaa127fa; 0xd4ef3085; 0x04881d05;
    0xd9d4d039; 0xe6db99e5; 0x1fa27cf8; 0xc4ac5665;
    0xf4292244; 0x432aff97; 0xab9423a7; 0xfc93a039;
    0x655b59c3; 0x8f0ccc92; 0xffeff47d; 0x85845dd1;
    0x6fa87e4f; 0xfe2ce6e0; 0xa3014314; 0x4e0811a1;
    0xf7537e82; 0xbd3af235; 0x2ad7d2bb; 0xeb86d391 ].

Record state := State { A : N; B : N; C : N; D : N }.

Definition init : state :=
  State 0x67452301 0xefcdab89 0x98badcfe 0x10325476.

(** Four little-endian bytes to a 32-bit word, and back. *)
Definition word_of_bytes (b0 b1 b2 b3 : N) : N :=
  b0 + 256 * b1 + 65536 * b2 + 16777216 * b3.

Fixpoint words_le (bs : list N) : list N :=
  match bs with
  | b0 :: b1 :: b2 :: b3 :: rest => word_of_bytes b0 b1 b2 b3 :: words_le rest
  | _ => []
  end.

Definition bytes_le (w : N) : list N :=
  [ w mod 256; (w / 256) mod 256; (w / 65536) mod 256; (w / 16777216) mod 256 ].

(** One of the 64 operations on a block with message words [M]. *)
Definition step (M : list N) (st : state) (i : nat) : state :=
  let '(State a b c d) := st in
  let n := N.of_nat i in
  let '(f, g) :=
    if n <? 16 then (N.lor (N.land b c) (N.land (not32 b) d), n)
    else if n <? 32 then (N.lor (N.land d b) (N.land (not32 d) c), (5 * n + 1) mod 16)
    else if n <? 48 then (N.lxor (N.lxor b c) d, (3 * n + 5) mod 16)
    else (N.lxor c (N.lor b (not32 d)), (7 * n) mod 16) in
  let f' := add32 (add32 (add32 f a) (nth i K_ 0)) (nth (N.to_nat g) M 0) in
  State d (add32 b (rotl f' (nth i S_ 0))) b c.

Definition process_block (st : state) (block : list N) : state :=
  let st' := fold_left (step (words_le block)) (seq 0 64) st in
  State (add32 (A st) (A st')) (add32 (B st) (B st'))
        (add32 (C st) (C st')) (add32 (D st) (D st')).

(** Padding: a 1 bit, zeros up to 56 mod 64, the bit length on 64 bits. *)
Definition pad (msg : list N) : list N :=
  let len := N.of_nat (length msg) in
  let zeros := N.to_nat ((119 - len mod 64) mod 64) in
  let bits := (8 * len) mod 2 ^ 64 in
  msg ++ [0x80] ++ repeat 0 zeros
      ++ bytes_le (bits mod 2 ^ 32) ++ bytes_le (bits / 2 ^ 32).

Fixpoint process (fuel : nat) (st : state) (bs : list N) : state :=
  match fuel, bs with
  | Datatypes.S fuel', _ :: _ =>
      process fuel' (process_block st (firstn 64 bs)) (skipn 64 bs)
  | _, _ => st
  end.

Definition digest (msg : list N) : list N :=
  let padded := pad msg in
  let st := process (length padded) init padded in
  bytes_le (A st) ++ bytes_le (B st) ++ bytes_le (C st) ++ bytes_le (D st).

(** [createHash('md5').update(s).digest('hex')]. *)
Definition hex (s : string) : string := hex_of_octets (digest (utf8_bytes s)).

End MD5.

(* ===================================================================== *)
(** ** generateUniqueFilename (server.js, lines 36-43) *)
(* ===================================================================== *)

Definition generateUniqueFilename
    (originalName : string) (now : N) (random : list Byte.byte) : string :=
  let timestamp := now in
  let randomBytes := Buffer_toString_hex random in
  let hash := substring_from0 8 (MD5.hex (originalName +:+ Number_toString timestamp)) in
  let ext := or_default (pop (split "." originalName)) "jpg" in
  hash +:+ "_" +:+ randomBytes +:+ "_" +:+ Number_toString timestamp +:+ "." +:+ ext.

(* ===================================================================== *)
(** ** Date.prototype.toISOString *)
(* ===================================================================== *)

Module Date.

Definition msPerDay : N := 86400000.

(** The largest time value a Date can hold (ECMAScript TimeClip). *)
Definition maxTime : N := 8640000000000000.

Definition Day (t : N) : N := t / msPerDay.
Definition HourFromTime (t : N) : N := (t / 3600000) mod 24.
Definition MinFromTime (t : N) : N := (t / 60000) mod 60.
Definition SecFromTime (t : N) : N := (t / 1000) mod 60.
Definition msFromTime (t : N) : N := t mod 1000.

(** Proleptic Gregorian date of a day number counted from 1970-01-01,
    computed on 400-year eras that start on 1 March. *)
Definition civil_from_days (days : N) : N * N * N :=
  let z := days + 719468 in
  let era := z / 146097 in
  let doe := z mod 146097 in
  let yoe := (doe - doe / 1460 + doe / 36524 - doe / 146096) / 365 in
  let doy := doe - (365 * yoe + yoe / 4 - yoe / 100) in
  let mp := (5 * doy + 2) / 153 in
  let d := doy - (153 * mp + 2) / 5 + 1 in
  let m := if mp <? 10 then mp + 3 else mp - 9 in
  let y := yoe + era * 400 + (if m <=? 2 then 1 else 0) in
  (y, m, d).

(** The calendar as ECMAScript defines it, for years from 1970 on: the day
    number of 1 January, leap years, and the days of a year that precede a
    month (month 13 standing for the end of the year). *)
Definition DayFromYear (y : N) : N :=
  365 * (y - 1970) + (y - 1969) / 4 - (y - 1901) / 100 + (y - 1601) / 400.

Definition InLeapYear (y : N) : bool :=
  if negb (y mod 4 =? 0) then false
  else if negb (y mod 100 =? 0) then true
  else if negb (y mod 400 =? 0) then false
  else true.

Definition leap_day (y : N) : N := if InLeapYear y then 1 else 0.

Definition DaysBeforeMonth (m : N) (leap : bool) : N :=
  let l := if leap then 1 else 0 in
  match m with
  | 1 => 0 | 2 => 31 | 3 => 59 + l | 4 => 90 + l | 5 => 120 + l | 6 => 151 + l
  | 7 => 181 + l | 8 => 212 + l | 9 => 243 + l | 10 => 273 + l | 11 => 304 + l
  | 12 => 334 + l
  | _ => 365 + l
  end.

Definition digit (n : N) : ascii := ascii_of_N (48 + n mod 10).

(** The [width] low decimal digits of [n], zero-padded. *)
Fixpoint pad (width : nat) (n : N) : string :=
  match width with
  | O => EmptyString
  | Datatypes.S w => pad w (n / 10) +:+ String (digit n) EmptyString
  end.

(** Years 0..9999 print on four digits, later years as [+YYYYYY]. *)
Definition year_string (y : N) : string :=
  if y <=? 9999 then pad 4 y else String "+" (pad 6 y).

(** [new Date(t).toISOString()]; [None] is the RangeError of an invalid
    date. *)
Definition toISOString (t : N) : option string :=
  if t <=? maxTime then
    let '(y, m, d) := civil_from_days (Day t) in
    Some (year_string y +:+ "-" +:+ pad 2 m +:+ "-" +:+ pad 2 d +:+ "T"
          +:+ pad 2 (HourFromTime t) +:+ ":" +:+ pad 2 (MinFromTime t) +:+ ":"
          +:+ pad 2 (SecFromTime t) +:+ "." +:+ pad 3 (msFromTime t) +:+ "Z")
  else None.

End Date.

(* ===================================================================== *)
(** ** Patterns: the regular expression of filenames, ISO-8601 strings *)
(* ===================================================================== *)

Module Regex.

Inductive regex : Type :=
| Void                                  (* matches nothing *)
| Eps                                   (* the empty string *)
| Class (p : ascii -> bool)             (* one character of a class *)
| Cat (r1 r2 : regex)
| Alt (r1 r2 : regex)
| Star (r : regex).

(** Whole-string matching, as [^...$] demands. *)
Inductive Matches : regex -> string -> Prop :=
| MEps : Matches Eps EmptyString
| MClass p c : p c = true -> Matches (Class p) (String c EmptyString)
| MCat r1 r2 s1 s2 : Matches r1 s1 -> Matches r2 s2 -> Matches (Cat r1 r2) (s1 +:+ s2)
| MAltL r1 r2 s : Matches r1 s -> Matches (Alt r1 r2) s
| MAltR r1 r2 s : Matches r2 s -> Matches (Alt r1 r2) s
| MStarNil r : Matches (Star r) EmptyString
| MStarCons r s1 s2 : Matches r s1 -> Matches (Star r) s2 -> Matches (Star r) (s1 +:+ s2).

(** [r{n}] and [r+]. *)
Fixpoint times (n : nat) (r : regex) : regex :=
  match n with
  | O => Eps
  | Datatypes.S k => Cat r (times k r)
  end.

Definition plus (r : regex) : regex := Cat r (Star r).

(** The same relation as a program, by derivatives. *)
Fixpoint nullable (r : regex) : bool :=
  match r with
  | Void => false
  | Eps => true
  | Class _ => false
  | Cat r1 r2 => nullable r1 && nullable r2
  | Alt r1 r2 => nullable r1 || nullable r2
  | Star _ => true
  end.

Fixpoint derive (c : ascii) (r : regex) : regex :=
  match r with
  | Void => Void
  | Eps => Void
  | Class p => if p c then Eps else Void
  | Cat r1 r2 =>
      if nullable r1 then Alt (Cat (derive c r1) r2) (derive c r2)
      else Cat (derive c r1) r2
  | Alt r1 r2 => Alt (derive c r1) (derive c r2)
  | Star r1 => Cat (derive c r1) (Star r1)
  end.

Fixpoint matchb (r : regex) (s : string) : bool :=
  match s with
  | EmptyString => nullable r
  | String c rest => matchb (derive c r) rest
  end.

End Regex.

Definition is_digit (c : ascii) : bool :=
  let k := N_of_ascii c in (48 <=? k) && (k <=? 57).

Definition is_lower_hex (c : ascii) : bool :=
  let k := N_of_ascii c in
  ((48 <=? k) && (k <=? 57)) || ((97 <=? k) && (k <=? 102)).

Definition is_char (a c : ascii) : bool := Ascii.eqb c a.

Definition not_char (a c : ascii) : bool := negb (Ascii.eqb c a).

(** [^[0-9a-f]{8}_[0-9a-f]{16}_[0-9]+\.[^.]+$] *)
Definition filename_pattern : Regex.regex :=
  Regex.Cat (Regex.times 8 (Regex.Class is_lower_hex))
 (Regex.Cat (Regex.Class (is_char "_"))
 (Regex.Cat (Regex.times 16 (Regex.Class is_lower_hex))
 (Regex.Cat (Regex.Class (is_char "_"))
 (Regex.Cat (Regex.plus (Regex.Class is_digit))
 (Regex.Cat (Regex.Class (is_char "."))
            (Regex.plus (Regex.Class (not_char "."))))))))%char.

(** The extension part of a filename: the text after its final ['.'],
    [None] when it has no ['.']. *)
Definition extension_of (filename : string) : option string :=
  match split "." filename with
  | [] | [_] => None
  | pieces => pop pieces
  end.

(** Reading a generated filename back: the hash part is its first eight
    characters; the timestamp is the decimal number between the second
    ['_'] (at offset 25) and the next ['.']. *)
Definition hash_part (filename : string) : string := substring_from0 8 filename.

Fixpoint up_to (stop : ascii) (s : string) : string :=
  match s with
  | EmptyString => EmptyString
  | String c rest => if Ascii.eqb c stop then EmptyString else String c (up_to stop rest)
  end.

Definition timestamp_part (filename : string) : option N :=
  let tail := String.substring 26 (String.length filename - 26) filename in
  option_map N.of_uint (NilZero.uint_of_string (up_to "." tail)).

(** Well-formed ISO-8601 date-time in UTC, as ECMAScript writes it:
    [YYYY-MM-DDTHH:mm:ss.sssZ] or, with an expanded year,
    [+YYYYYY-MM-DDTHH:mm:ss.sssZ] / [-YYYYYY-...]; month 01-12, day 01-31,
    hour 00-23, minute and second 00-59. *)
Module ISO8601.

Definition value (c : ascii) : N := N_of_ascii c - 48.

(** Read exactly [k] decimal digits. *)
Fixpoint digits (k : nat) (acc : N) (s : string) : option (N * string) :=
  match k with
  | O => Some (acc, s)
  | Datatypes.S k' =>
      match s with
      | String c rest =>
          if is_digit c then digits k' (10 * acc + value c) rest else None
      | EmptyString => None
      end
  end.

Definition expect (a : ascii) (s : string) : option string :=
  match s with
  | String c rest => if Ascii.eqb c a then Some rest else None
  | EmptyString => None
  end.

Definition year (s : string) : option (N * string) :=
  match s with
  | String c rest =>
      if Ascii.eqb c "+" || Ascii.eqb c "-" then digits 6 0 rest
      else digits 4 0 s
  | EmptyString => None
  end.

Definition field (k : nat) (lo hi : N) (s : string) : option string :=
  match digits k 0 s with
  | Some (v, rest) => if (lo <=? v) && (v <=? hi) then Some rest else None
  | None => None
  end.

Definition well_formed (s : string) : bool :=
  match
    y ← year s; s1 ← expect "-" y.2;
    s2 ← field 2 1 12 s1; s3 ← expect "-" s2;
    s4 ← field 2 1 31 s3; s5 ← expect "T" s4;
    s6 ← field 2 0 23 s5; s7 ← expect ":" s6;
    s8 ← field 2 0 59 s7; s9 ← expect ":" s8;
    s10 ← field 2 0 59 s9; s11 ← expect "." s10;
    s12 ← field 3 0 999 s11; expect "Z" s12
  with
  | Some EmptyString => true
  | _ => false
  end.

End ISO8601.

(* ===================================================================== *)
(** ** HTTP: requests, responses, errors *)
(* ===================================================================== *)

#[local] Set Warnings "-register-all".
Inductive json : Type :=
| JBool (b : bool)
| JNum (n : N)
| JStr (s : string)
| JObj (fields : list (string * json)).
#[local] Set Warnings "register-all".

(** A response: what [res.status(c).json(v)] sends, the message on the
    page of Express's final handler, or no body at all (the answer to a
    HEAD or OPTIONS request, and 304). *)
Inductive ResBody : Type :=
| Json (v : json)
| Page (text : string)
| NoBody.

Record Response := { status : N; body : ResBody }.

(** [res.json(v)] without [res.status]: the status stays 200. *)
Definition res_json (v : json) : Response := {| status := 200; body := Json v |}.

Definition res_status_json (code : N) (v : json) : Response :=
  {| status := code; body := Json v |}.

(** The error values that reach [next(err)]: multer's [MulterError], with
    its code, and plain [Error]s with their message. *)
Inductive MulterCode :=
| LIMIT_PART_COUNT
| LIMIT_FILE_SIZE
| LIMIT_FILE_COUNT
| LIMIT_FIELD_KEY
| LIMIT_FIELD_VALUE
| LIMIT_FIELD_COUNT
| LIMIT_UNEXPECTED_FILE
| MISSING_FIELD_NAME.

Inductive Error : Type :=
| MulterError (code : MulterCode)
| PlainError (message : string).

Definition message (e : Error) : string :=
  match e with
  | MulterError LIMIT_PART_COUNT => "Too many parts"
  | MulterError LIMIT_FILE_SIZE => "File too large"
  | MulterError LIMIT_FILE_COUNT => "Too many files"
  | MulterError LIMIT_FIELD_KEY => "Field name too long"
  | MulterError LIMIT_FIELD_VALUE => "Field value too long"
  | MulterError LIMIT_FIELD_COUNT => "Too many fields"
  | MulterError LIMIT_UNEXPECTED_FILE => "Unexpected field"
  | MulterError MISSING_FIELD_NAME => "Field name missing"
  | PlainError m => m
  end.

(** One file part of a multipart/form-data body. *)
Record FilePart := {
  fieldname : string;
  originalname : string;
  mimetype : string;
  buffer : list Byte.byte
}.

(** The body of a request as the upload middleware sees it: not a
    multipart body (multer passes the request on untouched), or the file
    parts of a multipart body in the order they arrive, with the filename
    and MIME type multer reports for each.  Text fields that are read
    without error only fill [req.body], which no handler reads; they are
    not listed.  When the parser fails on the multipart data (see
    [Rejection]), the parts listed are those it has read before. *)
Inductive ReqBody : Type :=
| NotMultipart
| Multipart (parts : list FilePart).

(** The error a body parser raises on a request and passes to [next(err)]:
    [express.json()] on a body of type application/json that it cannot
    accept (malformed JSON, too large, unsupported charset or encoding), or
    multer's parser on multipart data it cannot read to the end (malformed
    data, a text field over a limit), after the file parts listed in the
    body.  Each parser looks only at bodies of its own type. *)
Inductive Rejection : Type :=
| ByJson (message : string)
| ByMulter (err : Error).

(** The request methods; any other method is routed like PUT. *)
Inductive Method := GET | HEAD | POST | PUT | PATCH | DELETE | OPTIONS.

(** [fresh] is Express's [req.fresh] for the answer at hand: the request
    is conditional (If-None-Match, If-Modified-Since) and its validators
    match, so a GET or HEAD that succeeds is answered 304. *)
Record Request := {
  method : Method;
  path : string;
  reqBody : ReqBody;
  rejection : option Rejection;
  fresh : bool
}.

(* ===================================================================== *)
(** ** The storage gateway (supabase.storage.from(BUCKET_NAME)) *)
(* ===================================================================== *)

Record StoredObject := { content : list Byte.byte; contentType : string }.

Inductive GatewayCall : Type :=
| CallUpload (key : string) (obj : StoredObject)
| CallRemove (keys : list string).

(** The bucket and the log of calls that reached the gateway. *)
Record World := {
  bucket : gmap string StoredObject;
  calls : list GatewayCall
}.

(** How the service behaves for the request at hand: it works, it answers
    with an error (network, permissions, missing bucket), or the client
    call throws.  Which of these happens is not decided by the code. *)
Inductive Service : Type :=
| Reachable
| Failing (message : string)     (* answers { error } *)
| Throwing.                      (* the client call rejects *)

(** What one request reads from its environment. *)
Record Env := {
  now : N;                          (* Date.now() / new Date() *)
  random : list Byte.byte;          (* crypto.randomBytes(8) *)
  service : Service;
  (* supabase.storage.from(BUCKET_NAME).getPublicUrl(key).data.publicUrl:
     computed by the client library without a call to the service *)
  getPublicUrl : string -> string;
  (* what Express applies to a captured path segment before it becomes
     req.params.filename; [None]: it throws URIError *)
  decodeURIComponent : string -> option string
}.

(** The result of a gateway call: [{ error: null }], [{ error }], or an
    exception. *)
Inductive Reply : Type :=
| Done
| Failed (message : string)
| Thrown.

(** Modelled from the spec: the storage service is external and has no
    source here.  Section 4.2: [putObject] stores the bytes under the key
    and must not overwrite an existing key (upsert disabled); a failure
    carries a message.  What the handler does is the logged call
    [upload(key, bytes, { upsert: false, contentType })]; the bucket is
    the specification's view of the service, under the key as passed (how
    the client library writes a key into its request is not modelled). *)
Definition storage_upload (env : Env) (key : string) (obj : StoredObject)
    (w : World) : Reply * World :=
  let logged := calls w ++ [CallUpload key obj] in
  match service env with
  | Throwing => (Thrown, {| bucket := bucket w; calls := logged |})
  | Failing m => (Failed m, {| bucket := bucket w; calls := logged |})
  | Reachable =>
      match bucket w !! key with
      | Some _ => (Failed "The resource already exists",
                   {| bucket := bucket w; calls := logged |})
      | None => (Done, {| bucket := <[key := obj]> (bucket w); calls := logged |})
      end
  end.

(** Modelled from the spec: section 4.2, [deleteObject] is unconditional
    and does not tell a missing key from an existing one.  What the
    handler does is the logged call [remove([key])]. *)
Definition storage_remove (env : Env) (keys : list string) (w : World)
    : Reply * World :=
  let logged := calls w ++ [CallRemove keys] in
  match service env with
  | Throwing => (Thrown, {| bucket := bucket w; calls := logged |})
  | Failing m => (Failed m, {| bucket := bucket w; calls := logged |})
  | Reachable =>
      (Done, {| bucket := foldr delete (bucket w) keys; calls := logged |})
  end.

(* ===================================================================== *)
(** ** multer, as configured at lines 22-33 *)
(* ===================================================================== *)

(** [limits: { fileSize: 5 * 1024 * 1024 }] *)
Definition fileSize : N := 5 * 1024 * 1024.

(** What [fileFilter] passes to its callback: [cb(null, true)] or
    [cb(err, false)]. *)
Inductive FilterResult : Type :=
| Accept
| Reject (err : Error).

Definition fileFilter (file : FilePart) : FilterResult :=
  if startsWith "image/" (mimetype file) then Accept
  else Reject (PlainError "Only image files allowed").

(** [req.file] under memory storage. *)
Record UploadedFile := {
  file_originalname : string;
  file_mimetype : string;
  file_buffer : list Byte.byte;
  file_size : N
}.

Definition stored (p : FilePart) : UploadedFile :=
  {| file_originalname := originalname p;
     file_mimetype := mimetype p;
     file_buffer := buffer p;
     file_size := N.of_nat (length (buffer p)) |}.

(** A middleware either calls [next()] with the request it has prepared or
    [next(err)]. *)
Inductive Next (A : Type) : Type :=
| Continue (a : A)
| NextError (err : Error).
Arguments Continue {A} a.
Arguments NextError {A} err.

(** [upload.single(name)] over the file parts in the order they arrive.
    A part without a filename is no file and is skipped; a file in another
    field, or a second file in [name], is unexpected; then [fileFilter]
    decides on the part's headers; then the content is read and the size
    limit applies ([fileSize] is the largest size accepted; no statement
    below depends on what happens at exactly that size).  The first error
    ends the upload. *)
Fixpoint single_parts (name : string) (filesLeft : nat) (parts : list FilePart)
    (file : option UploadedFile) : Next (option UploadedFile) :=
  match parts with
  | [] => Continue file
  | p :: rest =>
      if String.eqb (originalname p) "" then single_parts name filesLeft rest file
      else if negb (String.eqb (fieldname p) name) then
        NextError (MulterError LIMIT_UNEXPECTED_FILE)
      else
        match filesLeft with
        | O => NextError (MulterError LIMIT_UNEXPECTED_FILE)
        | Datatypes.S remaining =>
            match fileFilter p with
            | Reject err => NextError err
            | Accept =>
                if fileSize <? N.of_nat (length (buffer p)) then
                  NextError (MulterError LIMIT_FILE_SIZE)
                else single_parts name remaining rest (Some (stored p))
            end
        end
  end.

Definition upload_single (name : string) (b : ReqBody) : Next (option UploadedFile) :=
  match b with
  | NotMultipart => Continue None
  | Multipart parts => single_parts name 1 parts None
  end.

(* ===================================================================== *)
(** ** Route handlers and error middleware *)
(* ===================================================================== *)

Definition failure (code : N) (error : string) : Response :=
  res_status_json code (JObj [("success", JBool false); ("error", JStr error)]).

(** [GET /health] (lines 46-52).  [None]: [toISOString] threw. *)
Definition health (env : Env) : option Response :=
  match Date.toISOString (now env) with
  | Some timestamp =>
      Some (res_json (JObj [("status", JStr "OK");
                            ("timestamp", JStr timestamp);
                            ("service", JStr "Photo Upload API")]))
  | None => None
  end.

(** [POST /upload] after [upload.single('photo')] (lines 55-108). *)
Definition uploadHandler (env : Env) (file : option UploadedFile) (w : World)
    : Response * World :=
  match file with
  | None => (failure 400 "No photo file provided", w)
  | Some f =>
      let uniqueFilename :=
        generateUniqueFilename (file_originalname f) (now env) (random env) in
      let '(reply, w') :=
        storage_upload env uniqueFilename
          {| content := file_buffer f; contentType := file_mimetype f |} w in
      match reply with
      | Thrown => (failure 500 "Internal server error", w')
      | Failed m => (failure 500 ("Upload failed: " +:+ m), w')
      | Done =>
          (res_json (JObj [("success", JBool true);
                           ("message", JStr "Photo uploaded successfully");
                           ("data", JObj [("filename", JStr uniqueFilename);
                                          ("url", JStr (getPublicUrl env uniqueFilename));
                                          ("size", JNum (file_size f));
                                          ("type", JStr (file_mimetype f))])]),
           w')
      end
  end.

(** [DELETE /delete/:filename] (lines 111-149), given [req.params.filename]. *)
Definition deleteHandler (env : Env) (filename : string) (w : World)
    : Response * World :=
  if String.eqb filename "" then (failure 400 "Filename is required", w)
  else
    let '(reply, w') := storage_remove env [filename] w in
    match reply with
    | Thrown => (failure 500 "Internal server error", w')
    | Failed m => (failure 500 ("Delete failed: " +:+ m), w')
    | Done =>
        (res_json (JObj [("success", JBool true);
                         ("message", JStr "Photo deleted successfully");
                         ("data", JObj [("filename", JStr filename)])]),
         w')
    end.

(** The error-handling middleware (lines 152-166). *)
Definition errorHandler (error : Error) : Response :=
  let fallback :=
    failure 500 (or_default (Some (message error)) "Something went wrong") in
  match error with
  | MulterError code =>
      match code with
      | LIMIT_FILE_SIZE => failure 400 "File too large (max 5MB)"
      | _ => fallback
      end
  | PlainError _ => fallback
  end.

(* ===================================================================== *)
(** ** Express routing *)
(* ===================================================================== *)

(** Paths are matched without regard to case, and one trailing ['/'] is
    allowed (the router's defaults). *)
Definition lower (c : ascii) : ascii :=
  let k := N_of_ascii c in
  if (65 <=? k) && (k <=? 90) then ascii_of_N (k + 32) else c.

Fixpoint lower_string (s : string) : string :=
  match s with
  | EmptyString => EmptyString
  | String c rest => String (lower c) (lower_string rest)
  end.

Fixpoint contains (a : ascii) (s : string) : bool :=
  match s with
  | EmptyString => false
  | String c rest => Ascii.eqb c a || contains a rest
  end.

(** A fixed route such as ['/health']. *)
Definition route_matches (route path : string) : bool :=
  let p := lower_string path in
  String.eqb p route || String.eqb p (route +:+ "/").

(** [s] without one final ['/'], if it has one. *)
Fixpoint drop_final_slash (s : string) : string :=
  match s with
  | EmptyString => EmptyString
  | String c EmptyString => if Ascii.eqb c "/" then EmptyString else s
  | String c rest => String c (drop_final_slash rest)
  end.

(** ['/delete/:filename']: the captured segment, which is non-empty and
    holds no ['/']; [None] when the path does not match. *)
Definition match_delete (path : string) : option string :=
  if startsWith "/delete/" (lower_string path) then
    let segment := drop_final_slash (String.substring 8 (String.length path - 8) path) in
    if String.eqb segment "" || contains "/" segment then None
    else Some segment
  else None.

Definition method_name (m : Method) : string :=
  match m with
  | GET => "GET" | HEAD => "HEAD" | POST => "POST" | PUT => "PUT"
  | PATCH => "PATCH" | DELETE => "DELETE" | OPTIONS => "OPTIONS"
  end.

(** No route matched: the final handler's 404 page. *)
Definition notFound (req : Request) : Response :=
  {| status := 404;
     body := Page ("Cannot " +:+ method_name (method req) +:+ " " +:+ path req) |}.

(** [upload.single('photo')] on a request: the file parts first, then the
    error of the parser if it cannot read the multipart data to the end.
    A request that is not multipart goes on untouched. *)
Definition upload_middleware (req : Request) : Next (option UploadedFile) :=
  match upload_single "photo" (reqBody req) with
  | NextError err => NextError err
  | Continue file =>
      match reqBody req, rejection req with
      | Multipart _, Some (ByMulter err) => NextError err
      | _, _ => Continue file
      end
  end.

(** The routes (lines 46-149) with the error-handling middleware behind
    them: the first matching route answers, an error goes to
    [errorHandler], an unmatched request to the final handler.  HEAD is
    routed to the GET route. *)
Definition routes (env : Env) (req : Request) (w : World) : Response * World :=
  match method req with
  | GET | HEAD =>
      if route_matches "/health" (path req) then
        match health env with
        | Some res => (res, w)
        | None => (errorHandler (PlainError "Invalid time value"), w)
        end
      else (notFound req, w)
  | POST =>
      if route_matches "/upload" (path req) then
        match upload_middleware req with
        | NextError err => (errorHandler err, w)
        | Continue file => uploadHandler env file w
        end
      else (notFound req, w)
  | DELETE =>
      match match_delete (path req) with
      | Some segment =>
          match decodeURIComponent env segment with
          | Some filename => deleteHandler env filename w
          | None =>
              (errorHandler
                 (PlainError ("Failed to decode param '" +:+ segment +:+ "'")), w)
          end
      | None => (notFound req, w)
      end
  | _ => (notFound req, w)
  end.

(** How Express sends the answer: a successful answer to a fresh GET or
    HEAD becomes 304 without body, and no answer to HEAD has a body. *)
Definition finish (req : Request) (res : Response) : Response :=
  match method req with
  | GET =>
      if fresh req && (200 <=? status res) && (status res <? 300)
      then {| status := 304; body := NoBody |} else res
  | HEAD =>
      if fresh req && (200 <=? status res) && (status res <? 300)
      then {| status := 304; body := NoBody |}
      else {| status := status res; body := NoBody |}
  | _ => res
  end.

(** [express.json()] (line 19): the request goes on unless its body is
    JSON that the parser rejects. *)
Definition express_json (req : Request) : Next unit :=
  match reqBody req, rejection req with
  | NotMultipart, Some (ByJson m) => NextError (PlainError m)
  | _, _ => Continue tt
  end.

(** The application (lines 17-166).  [cors()] answers an OPTIONS request
    itself, with 204 and no body, and passes every other request on;
    [express.json()] passes the request on or sends its error to
    [errorHandler]; then the routes. *)
Definition app (env : Env) (req : Request) (w : World) : Response * World :=
  match method req with
  | OPTIONS => ({| status := 204; body := NoBody |}, w)
  | _ =>
      match express_json req with
      | NextError err => (finish req (errorHandler err), w)
      | Continue _ => let '(res, w') := routes env req w in (finish req res, w')
      end
  end.

(* ===================================================================== *)
(** ** Predicates used in the statements *)
(* ===================================================================== *)

(** Every character of [s] is in the class [p]. *)
Fixpoint all_chars (p : ascii -> bool) (s : string) : bool :=
  match s with
  | EmptyString => true
  | String c rest => p c && all_chars p rest
  end.

(** The last character of [s] is [a]. *)
Fixpoint ends_with (a : ascii) (s : string) : bool :=
  match s with
  | EmptyString => false
  | String c EmptyString => Ascii.eqb c a
  | String _ rest => ends_with a rest
  end.

(** The extension [generateUniqueFilename] appends (line 40). *)
Definition chosen_ext (originalName : string) : string :=
  or_default (pop (split "." originalName)) "jpg".

(** Everything before the final ['.'] of a generated filename. *)
Definition stem (originalName : string) (now : N) (random : list Byte.byte) : string :=
  substring_from0 8 (MD5.hex (originalName +:+ Number_toString now))
    +:+ "_" +:+ Buffer_toString_hex random +:+ "_" +:+ Number_toString now.

(** The file parts multer treats as files: those with a filename. *)
Definition is_file (p : FilePart) : bool := negb (String.eqb (originalname p) "").

Definition is_image (p : FilePart) : bool := startsWith "image/" (mimetype p).

Definition oversized (p : FilePart) : bool :=
  fileSize <? N.of_nat (length (buffer p)).

Definition file_parts (b : ReqBody) : list FilePart :=
  match b with
  | NotMultipart => []
  | Multipart parts => List.filter is_file parts
  end.

(** Requests that the upload route turns away as client input errors:
    no file at all, a file that is not an image, a file above the limit. *)
Definition missing_file (b : ReqBody) : bool :=
  match file_parts b with
  | [] => true
  | _ :: _ => false
  end.

Definition has_non_image (b : ReqBody) : bool :=
  existsb (fun p => negb (is_image p)) (file_parts b).

Definition has_oversized (b : ReqBody) : bool :=
  existsb oversized (file_parts b).

Definition client_input_error (b : ReqBody) : bool :=
  missing_file b || has_non_image b || has_oversized b.

(** No part of the body is in the form field [name]. *)
Definition no_field (name : string) (b : ReqBody) : bool :=
  match b with
  | NotMultipart => true
  | Multipart parts => forallb (fun p => negb (String.eqb (fieldname p) name)) parts
  end.

Definition upload_request (b : ReqBody) : Request :=
  {| method := POST; path := "/upload"; reqBody := b;
     rejection := None; fresh := false |}.

(** Sample values for the examples; the names in the examples hold no
    ['%'], and text without ['%'] decodes to itself. *)
Definition sample_env : Env :=
  {| now := 1735123456789;
     random := [Byte.x00; Byte.xff; Byte.x10; Byte.xab;
                Byte.x01; Byte.x02; Byte.x03; Byte.x04];
     service := Reachable;
     getPublicUrl := String.append
       "https://project.supabase.co/storage/v1/object/public/Photos/";
     decodeURIComponent := Some |}.

Definition empty_world : World := {| bucket := ∅; calls := [] |}.

(** A buffer of six megabytes. *)
Definition six_megabytes : list Byte.byte :=
  repeat Byte.x00 (N.to_nat (6 * 1024 * 1024)).

Definition part (field name type : string) (bytes : list Byte.byte) : FilePart :=
  {| fieldname := field; originalname := name; mimetype := type; buffer := bytes |}.

(* ===================================================================== *)
(** ** Reading values back *)
(* ===================================================================== *)

(** [pieces.join(sep)], the inverse of [split]. *)
Fixpoint join (sep : ascii) (pieces : list string) : string :=
  match pieces with
  | [] => EmptyString
  | [x] => x
  | x :: rest => x +:+ String sep (join sep rest)
  end.

(** [Buffer.from(s, 'hex')]: two hex digits per byte. *)
Definition hex_value (c : ascii) : N :=
  let k := N_of_ascii c in
  if k <? 58 then k - 48 else k - 87.

Fixpoint octets_of_hex (s : string) : list N :=
  match s with
  | String a (String b rest) => (16 * hex_value a + hex_value b) :: octets_of_hex rest
  | _ => []
  end.

(** The sixteen characters between the two ['_'] of a generated filename. *)
Definition random_part (filename : string) : string :=
  String.substring 9 16 filename.

(** The time value an ISO-8601 string written by [toISOString] denotes
    (ECMAScript MakeDay and MakeTime on its fields); years before 0 are
    not read. *)
Definition read_iso (s : string) : option N :=
  if startsWith "-" s then None
  else
    y ← ISO8601.year s; s1 ← ISO8601.expect "-" y.2;
    m ← ISO8601.digits 2 0 s1; s2 ← ISO8601.expect "-" m.2;
    d ← ISO8601.digits 2 0 s2; s3 ← ISO8601.expect "T" d.2;
    h ← ISO8601.digits 2 0 s3; s4 ← ISO8601.expect ":" h.2;
    mi ← ISO8601.digits 2 0 s4; s5 ← ISO8601.expect ":" mi.2;
    sec ← ISO8601.digits 2 0 s5; s6 ← ISO8601.expect "." sec.2;
    ms ← ISO8601.digits 3 0 s6; s7 ← ISO8601.expect "Z" ms.2;
    if String.eqb s7 "" then
      Some ((Date.DayFromYear y.1
             + Date.DaysBeforeMonth m.1 (Date.InLeapYear y.1) + d.1 - 1)
              * Date.msPerDay
            + h.1 * 3600000 + mi.1 * 60000 + sec.1 * 1000 + ms.1)
    else None.

(** [v.k] on the JSON value of a response body. *)
Fixpoint assoc (k : string) (fields : list (string * json)) : option json :=
  match fields with
  | [] => None
  | (k', v) :: rest => if String.eqb k' k then Some v else assoc k rest
  end.

Definition json_get (k : string) (v : json) : option json :=
  match v with
  | JObj fields => assoc k fields
  | _ => None
  end.

Definition body_json (r : Response) : option json :=
  match body r with
  | Json v => Some v
  | Page _ => None
  | NoBody => None
  end.

(** [body.data.k] of a response. *)
Definition data_field (k : string) (r : Response) : option json :=
  match body_json r with
  | Some v =>
      match json_get "data" v with
      | Some d => json_get k d
      | None => None
      end
  | None => None
  end.

(** [body.k] of a response. *)
Definition top_field (k : string) (r : Response) : option json :=
  match body_json r with
  | Some v => json_get k v
  | None => None
  end.

(** A file part that [upload.single('photo')] lets through. *)
Definition acceptable (name : string) (p : FilePart) : bool :=
  String.eqb (fieldname p) name && is_image p && negb (oversized p).

(* ===================================================================== *)
(** * Properties *)
(* ===================================================================== *)

(** Division and remainder by constants are linear arithmetic. *)
#[local] Ltac Zify.zify_post_hook ::= Z.to_euclidean_division_equations.

(** ** Strings *)

Lemma append_assoc (a b c : string) : (a +:+ b) +:+ c = a +:+ (b +:+ c).
Proof. induction a as [|x a IH]; simpl; [reflexivity | now rewrite IH]. Qed.

Lemma append_empty_r (a : string) : a +:+ "" = a.
Proof. induction a as [|x a IH]; simpl; [reflexivity | now rewrite IH]. Qed.

Lemma length_append (a b : string) :
  String.length (a +:+ b) = (String.length a + String.length b)%nat.
Proof. induction a as [|x a IH]; simpl; [reflexivity | now rewrite IH]. Qed.

Lemma all_chars_append p (a b : string) :
  all_chars p (a +:+ b) = all_chars p a && all_chars p b.
Proof.
  induction a as [|x a IH]; simpl; [reflexivity|].
  rewrite IH. now rewrite andb_assoc.
Qed.

Lemma substring0_append (a b : string) :
  String.substring 0 (String.length a) (a +:+ b) = a.
Proof. induction a as [|x a IH]; simpl; [now destruct b | now rewrite IH]. Qed.

Lemma substring_skip (a b : string) (n : nat) :
  String.substring (String.length a) n (a +:+ b) = String.substring 0 n b.
Proof. induction a as [|x a IH]; simpl; [reflexivity | exact IH]. Qed.

Lemma substring0_all (s : string) : String.substring 0 (String.length s) s = s.
Proof. induction s as [|x s IH]; simpl; [reflexivity | now rewrite IH]. Qed.

Lemma substring0_length (n : nat) (s : string) :
  (n <= String.length s)%nat -> String.length (String.substring 0 n s) = n.
Proof.
  revert s; induction n as [|n IH]; intros [|x s] Hn; simpl in *; try reflexivity; try lia.
  rewrite IH; [reflexivity | lia].
Qed.

Lemma substring0_all_chars p (n : nat) (s : string) :
  all_chars p s = true -> all_chars p (String.substring 0 n s) = true.
Proof.
  revert s; induction n as [|n IH]; intros [|x s] Hs; simpl in *; try reflexivity.
  apply andb_true_iff in Hs as [Hx Hs]. rewrite Hx. simpl. now apply IH.
Qed.

(** *** split and pop *)

Lemma split_nonempty sep s : split sep s <> [].
Proof.
  destruct s as [|c s]; simpl; [discriminate|].
  destruct (Ascii.eqb c sep); [discriminate|].
  destruct (split sep s); discriminate.
Qed.

Lemma split_without sep s : contains sep s = false -> split sep s = [s].
Proof.
  induction s as [|c s IH]; simpl; intros H; [reflexivity|].
  apply orb_false_iff in H as [Hc Hs].
  rewrite Hc, (IH Hs). reflexivity.
Qed.

Lemma split_pieces sep s :
  Forall (fun piece => contains sep piece = false) (split sep s).
Proof.
  induction s as [|c s IH]; simpl.
  - repeat constructor.
  - destruct (Ascii.eqb c sep) eqn:Hc.
    + constructor; [reflexivity | exact IH].
    + destruct (split sep s) as [|piece pieces].
      * repeat constructor. simpl. now rewrite Hc.
      * inversion IH; subst. constructor; [|assumption].
        simpl. rewrite Hc. assumption.
Qed.

(** Splitting at an occurrence of the separator: the pieces of the part
    after it come last. *)
Lemma split_append sep (a b : string) :
  exists front : list string,
    front <> [] /\ split sep (a +:+ String sep b) = (front ++ split sep b)%list.
Proof.
  induction a as [|c a (front & Hne & IH)]; simpl.
  - rewrite Ascii.eqb_refl. exists [EmptyString]. split; [discriminate | reflexivity].
  - destruct (Ascii.eqb c sep).
    + exists (EmptyString :: front). split; [discriminate|]. rewrite IH. reflexivity.
    + rewrite IH. destruct front as [|piece front]; [contradiction|].
      exists (String c piece :: front). split; [discriminate | reflexivity].
Qed.

Lemma pop_app (front back : list string) :
  back <> [] -> pop (front ++ back) = pop back.
Proof.
  intros Hb. induction front as [|x front IH]; simpl; [reflexivity|].
  destruct (front ++ back) eqn:E; [|exact IH].
  apply app_eq_nil in E as [_ E]. contradiction.
Qed.

Lemma pop_In (a : list string) (x : string) : pop a = Some x -> In x a.
Proof.
  induction a as [|y a IH]; simpl; [discriminate|].
  destruct a as [|z a]; [intros [= ->]; now left | intros H; right; now apply IH].
Qed.

Lemma pop_split_append sep (a b : string) :
  pop (split sep (a +:+ String sep b)) = pop (split sep b).
Proof.
  destruct (split_append sep a b) as (front & _ & ->).
  apply pop_app, split_nonempty.
Qed.

Lemma ends_with_inv a s :
  ends_with a s = true -> exists front, s = front +:+ String a "".
Proof.
  induction s as [|c s IH]; simpl; [discriminate|].
  destruct s as [|d s].
  - intros H. apply Ascii.eqb_eq in H as ->. now exists EmptyString.
  - intros H. destruct (IH H) as [front ->]. now exists (String c front).
Qed.

Lemma ends_with_append a (front s : string) :
  s <> EmptyString -> ends_with a (front +:+ s) = ends_with a s.
Proof.
  intros Hs. induction front as [|c front IH]; simpl; [reflexivity|].
  destruct (front +:+ s) eqn:E; [|exact IH].
  destruct front; simpl in E; [contradiction | discriminate].
Qed.

(** *** The extension chosen by generateUniqueFilename *)

Lemma chosen_ext_dot_free name : contains "." (chosen_ext name) = false.
Proof.
  unfold chosen_ext. destruct (pop (split "." name)) as [[|c e]|] eqn:E; simpl; try reflexivity.
  apply pop_In in E.
  pose proof (split_pieces "." name) as Hall.
  rewrite List.Forall_forall in Hall. exact (Hall _ E).
Qed.

Lemma chosen_ext_nonempty name : chosen_ext name <> EmptyString.
Proof.
  unfold chosen_ext. destruct (pop (split "." name)) as [[|c e]|]; simpl; discriminate.
Qed.

Lemma extension_of_append (front ext : string) :
  contains "." ext = false ->
  extension_of (front +:+ String "." ext) = Some ext.
Proof.
  intros Hext. unfold extension_of.
  destruct (split_append "." front ext) as (pieces & Hne & E).
  rewrite E, (split_without _ _ Hext).
  destruct pieces as [|x pieces]; [contradiction|].
  destruct pieces as [|y pieces]; simpl.
  - reflexivity.
  - change (pop ((y :: pieces) ++ [ext]) = Some ext).
    rewrite pop_app; [reflexivity | discriminate].
Qed.

(** ** Hex and decimal digits *)

Lemma hex_digit_lower n : is_lower_hex (hex_digit n) = true.
Proof.
  unfold hex_digit, is_lower_hex.
  pose proof (N.mod_upper_bound n 16 ltac:(lia)) as Hd.
  destruct (N.ltb_spec (n mod 16) 10) as [H | H];
    rewrite N_ascii_embedding by lia.
  - replace (48 <=? 48 + n mod 16) with true by (symmetry; apply N.leb_le; lia).
    replace (48 + n mod 16 <=? 57) with true by (symmetry; apply N.leb_le; lia).
    reflexivity.
  - replace (97 <=? 87 + n mod 16) with true by (symmetry; apply N.leb_le; lia).
    replace (87 + n mod 16 <=? 102) with true by (symmetry; apply N.leb_le; lia).
    apply orb_true_r.
Qed.

Lemma hex_of_octets_length bs :
  String.length (hex_of_octets bs) = (2 * length bs)%nat.
Proof. induction bs as [|b bs IH]; simpl; [reflexivity | rewrite IH; lia]. Qed.

Lemma hex_of_octets_lower bs : all_chars is_lower_hex (hex_of_octets bs) = true.
Proof.
  induction bs as [|b bs IH]; simpl; [reflexivity|].
  now rewrite !hex_digit_lower, IH.
Qed.

Lemma Buffer_toString_hex_length buf :
  String.length (Buffer_toString_hex buf) = (2 * length buf)%nat.
Proof. unfold Buffer_toString_hex. now rewrite hex_of_octets_length, length_map. Qed.

Lemma digest_length msg : length (MD5.digest msg) = 16%nat.
Proof. reflexivity. Qed.

Lemma md5_hex_length s : String.length (MD5.hex s) = 32%nat.
Proof. unfold MD5.hex. now rewrite hex_of_octets_length, digest_length. Qed.

Lemma hash_prefix_length s : String.length (substring_from0 8 (MD5.hex s)) = 8%nat.
Proof. apply substring0_length. rewrite md5_hex_length. lia. Qed.

Lemma hash_prefix_lower s :
  all_chars is_lower_hex (substring_from0 8 (MD5.hex s)) = true.
Proof. apply substring0_all_chars, hex_of_octets_lower. Qed.

Lemma string_of_uint_digits d :
  all_chars is_digit (NilEmpty.string_of_uint d) = true.
Proof. induction d; simpl; try reflexivity; exact IHd. Qed.

Lemma to_uint_not_Nil n : N.to_uint n <> Decimal.Nil.
Proof.
  intros H. pose proof (DecimalN.Unsigned.to_of (N.to_uint n)) as Hn.
  rewrite DecimalN.Unsigned.of_to in Hn.
  destruct n as [|p]; [discriminate|].
  simpl in H. unfold Pos.to_uint in H.
  pose proof (DecimalPos.Unsigned.to_uint_nonnil p) as Hp.
  now apply Hp.
Qed.

Lemma Number_toString_digits n : all_chars is_digit (Number_toString n) = true.
Proof.
  unfold Number_toString, NilZero.string_of_uint.
  destruct (N.to_uint n); try reflexivity; apply string_of_uint_digits.
Qed.

Lemma Number_toString_nonempty n : Number_toString n <> EmptyString.
Proof.
  unfold Number_toString, NilZero.string_of_uint.
  pose proof (to_uint_not_Nil n) as H.
  destruct (N.to_uint n); try contradiction; discriminate.
Qed.

(** A run of digits holds no ['.']. *)
Lemma digits_dot_free s : all_chars is_digit s = true -> contains "." s = false.
Proof.
  induction s as [|c s IH]; simpl; [reflexivity|].
  intros H. apply andb_true_iff in H as [Hc Hs]. rewrite (IH Hs), orb_false_r.
  destruct (Ascii.eqb_spec c "."); [subst; discriminate | reflexivity].
Qed.

Lemma Number_toString_parse n :
  option_map N.of_uint (NilZero.uint_of_string (Number_toString n)) = Some n.
Proof.
  unfold Number_toString.
  rewrite NilZero.usu by apply to_uint_not_Nil.
  simpl. now rewrite DecimalN.Unsigned.of_to.
Qed.

(** ** Regular expressions *)

Lemma Matches_times_class p (n : nat) (s : string) :
  String.length s = n -> all_chars p s = true ->
  Regex.Matches (Regex.times n (Regex.Class p)) s.
Proof.
  revert s; induction n as [|n IH]; intros [|c s] Hlen Hall; simpl in *;
    try discriminate.
  - constructor.
  - apply andb_true_iff in Hall as [Hc Hs].
    change (String c s) with (String c "" +:+ s).
    constructor; [now constructor | apply IH; congruence].
Qed.

Lemma Matches_star_class p (s : string) :
  all_chars p s = true -> Regex.Matches (Regex.Star (Regex.Class p)) s.
Proof.
  induction s as [|c s IH]; simpl; intros Hall; [constructor|].
  apply andb_true_iff in Hall as [Hc Hs].
  change (String c s) with (String c "" +:+ s).
  constructor; [now constructor | now apply IH].
Qed.

Lemma Matches_plus_class p (s : string) :
  s <> EmptyString -> all_chars p s = true ->
  Regex.Matches (Regex.plus (Regex.Class p)) s.
Proof.
  destruct s as [|c s]; [contradiction|]. intros _ Hall. simpl in Hall.
  apply andb_true_iff in Hall as [Hc Hs].
  change (String c s) with (String c "" +:+ s).
  constructor; [now constructor | now apply Matches_star_class].
Qed.

Lemma Matches_char (a : ascii) :
  Regex.Matches (Regex.Class (is_char a)) (String a "").
Proof. constructor. apply Ascii.eqb_refl. Qed.

Lemma not_dot_of_contains s :
  contains "." s = false -> all_chars (not_char ".") s = true.
Proof.
  induction s as [|c s IH]; simpl; [reflexivity|].
  intros H. apply orb_false_iff in H as [Hc Hs].
  unfold not_char at 1. now rewrite Hc, (IH Hs).
Qed.

Lemma Matches_cat_inv r1 r2 s :
  Regex.Matches (Regex.Cat r1 r2) s ->
  exists s1 s2, s = s1 +:+ s2 /\ Regex.Matches r1 s1 /\ Regex.Matches r2 s2.
Proof. inversion 1; subst. eauto. Qed.

Lemma append_empty_inv (a b : string) : a +:+ b = "" -> a = "" /\ b = "".
Proof. destruct a; simpl; [now split | discriminate]. Qed.

(** The derivative matcher decides [Matches]. *)
Lemma nullable_spec r : Regex.nullable r = true <-> Regex.Matches r "".
Proof.
  induction r as [| |p|r1 IH1 r2 IH2|r1 IH1 r2 IH2|r IH]; simpl.
  - split; [discriminate | inversion 1].
  - split; [constructor | reflexivity].
  - split; [discriminate | inversion 1].
  - rewrite andb_true_iff, IH1, IH2. split.
    + intros [H1 H2]. change EmptyString with ("" +:+ ""). now constructor.
    + intros H. apply Matches_cat_inv in H as (s1 & s2 & E & H1 & H2).
      symmetry in E. apply append_empty_inv in E as [-> ->]. now split.
  - rewrite orb_true_iff, IH1, IH2. split.
    + intros [H|H]; [now apply Regex.MAltL | now apply Regex.MAltR].
    + inversion 1; subst; [now left | now right].
  - split; [constructor | reflexivity].
Qed.

Lemma Matches_star_cons r c s :
  Regex.Matches (Regex.Star r) (String c s) ->
  exists s1 s2, s = s1 +:+ s2 /\ Regex.Matches r (String c s1)
                /\ Regex.Matches (Regex.Star r) s2.
Proof.
  intros H. remember (Regex.Star r) as r' eqn:Er. remember (String c s) as t eqn:Et.
  revert c s Et.
  induction H as [| | | | | |r0 s1 s2 H1 _ H2 IH2]; intros c0 s0 Et; try discriminate.
  injection Er as ->.
  destruct s1 as [|d s1]; simpl in Et.
  - now apply IH2.
  - injection Et as Hd Hs. subst. now exists s1, s2.
Qed.

Lemma derive_cat c r1 r2 t :
  (forall s, Regex.Matches (Regex.derive c r1) s <-> Regex.Matches r1 (String c s)) ->
  Regex.Matches (Regex.Cat (Regex.derive c r1) r2) t ->
  Regex.Matches (Regex.Cat r1 r2) (String c t).
Proof.
  intros IH1 H. apply Matches_cat_inv in H as (s1 & s2 & -> & H1 & H2).
  change (String c (s1 +:+ s2)) with (String c s1 +:+ s2).
  constructor; [now apply IH1 | assumption].
Qed.

Lemma cat_cons_inv c r1 r2 s :
  (forall s, Regex.Matches (Regex.derive c r1) s <-> Regex.Matches r1 (String c s)) ->
  Regex.Matches (Regex.Cat r1 r2) (String c s) ->
  Regex.Matches (Regex.Cat (Regex.derive c r1) r2) s
  \/ (Regex.Matches r1 "" /\ Regex.Matches r2 (String c s)).
Proof.
  intros IH1 H. apply Matches_cat_inv in H as (s1 & s2 & E & H1 & H2).
  destruct s1 as [|d s1]; simpl in E.
  - right. subst. now split.
  - injection E as Hc Hs. subst. left. constructor; [now apply IH1 | assumption].
Qed.

Lemma derive_spec c r s :
  Regex.Matches (Regex.derive c r) s <-> Regex.Matches r (String c s).
Proof.
  revert s.
  induction r as [| |p|r1 IH1 r2 IH2|r1 IH1 r2 IH2|r IH]; intros s; simpl.
  - split; inversion 1.
  - split; inversion 1.
  - destruct (p c) eqn:Hp; split; intros H.
    + inversion H; subst. now constructor.
    + inversion H; subst. constructor.
    + inversion H.
    + inversion H; subst. congruence.
  - destruct (Regex.nullable r1) eqn:Hn; split; intros H.
    + inversion H; subst; [now apply derive_cat|].
      change (String c s) with ("" +:+ String c s).
      constructor; [now apply nullable_spec | now apply IH2].
    + destruct (cat_cons_inv c r1 r2 s IH1 H) as [H'|[_ H']];
        [now apply Regex.MAltL | apply Regex.MAltR; now apply IH2].
    + now apply derive_cat.
    + destruct (cat_cons_inv c r1 r2 s IH1 H) as [H'|[H' _]]; [assumption|].
      apply nullable_spec in H'. congruence.
  - split; intros H; inversion H; subst.
    + apply Regex.MAltL. now apply IH1.
    + apply Regex.MAltR. now apply IH2.
    + apply Regex.MAltL. now apply IH1.
    + apply Regex.MAltR. now apply IH2.
  - split; intros H.
    + apply Matches_cat_inv in H as (s1 & s2 & -> & H1 & H2).
      change (String c (s1 +:+ s2)) with (String c s1 +:+ s2).
      constructor; [now apply IH | assumption].
    + apply Matches_star_cons in H as (s1 & s2 & -> & H1 & H2).
      constructor; [now apply IH | assumption].
Qed.

Lemma matchb_spec r s : Regex.matchb r s = true <-> Regex.Matches r s.
Proof.
  revert r; induction s as [|c s IH]; intros r; simpl.
  - apply nullable_spec.
  - rewrite IH. apply derive_spec.
Qed.

(** ** generateUniqueFilename *)

(** The four parts of a generated filename. *)
Lemma generateUniqueFilename_parts originalName now random :
  generateUniqueFilename originalName now random =
    substring_from0 8 (MD5.hex (originalName +:+ Number_toString now))
      +:+ "_" +:+ Buffer_toString_hex random
      +:+ "_" +:+ Number_toString now +:+ "." +:+ chosen_ext originalName.
Proof. reflexivity. Qed.

Lemma generateUniqueFilename_stem originalName now random :
  generateUniqueFilename originalName now random =
    stem originalName now random +:+ String "." (chosen_ext originalName).
Proof.
  rewrite generateUniqueFilename_parts. unfold stem.
  now rewrite !append_assoc.
Qed.

Lemma generated_extension originalName now random :
  extension_of (generateUniqueFilename originalName now random)
  = Some (chosen_ext originalName).
Proof.
  rewrite generateUniqueFilename_stem.
  apply extension_of_append, chosen_ext_dot_free.
Qed.

(** A name without ['.'] is its own last piece. *)
Lemma chosen_ext_without_dot name :
  name <> EmptyString -> contains "." name = false -> chosen_ext name = name.
Proof.
  intros Hne Hdot. unfold chosen_ext. rewrite (split_without _ _ Hdot). simpl.
  destruct name; [contradiction | reflexivity].
Qed.

Lemma chosen_ext_empty_piece front : chosen_ext (front +:+ ".") = "jpg".
Proof. unfold chosen_ext. now rewrite pop_split_append. Qed.

(** C1 (as the code behaves).  The claim is that an original name without
    ['.'] gives the extension "jpg".  The code takes the last piece of
    [originalName.split('.')], which for such a name is the whole name, and
    falls back to "jpg" only when that piece is empty: every non-empty
    name without ['.'] becomes the extension itself. *)
Theorem dotless_name_becomes_extension originalName now random :
  originalName <> EmptyString -> contains "." originalName = false ->
  extension_of (generateUniqueFilename originalName now random) = Some originalName.
Proof.
  intros Hne Hdot. rewrite generated_extension.
  now rewrite chosen_ext_without_dot.
Qed.

Lemma dotless_name_becomes_extension_witness :
  extension_of
    (generateUniqueFilename "photo" 1735123456789
       [Byte.x00; Byte.xff; Byte.x10; Byte.xab; Byte.x01; Byte.x02; Byte.x03; Byte.x04])
  = Some "photo".
Proof.
  apply (dotless_name_becomes_extension "photo" 1735123456789
    [Byte.x00; Byte.xff; Byte.x10; Byte.xab; Byte.x01; Byte.x02; Byte.x03; Byte.x04]);
    [discriminate | reflexivity].
Defined.

(** The upload named "photo", in full. *)
Example photo_filename :
  generateUniqueFilename "photo" 1735123456789
    [Byte.x00; Byte.xff; Byte.x10; Byte.xab; Byte.x01; Byte.x02; Byte.x03; Byte.x04]
  = "c0411c2b_00ff10ab01020304_1735123456789.photo".
Proof. vm_compute. reflexivity. Qed.

(** With an extension in the name, the digest of "photo.png1735123456789"
    starts with 34b08cbd. *)
Example photo_png_filename :
  generateUniqueFilename "photo.png" 1735123456789
    [Byte.x00; Byte.xff; Byte.x10; Byte.xab; Byte.x01; Byte.x02; Byte.x03; Byte.x04]
  = "34b08cbd_00ff10ab01020304_1735123456789.png".
Proof. vm_compute. reflexivity. Qed.

(** C4.  For every original name, timestamp and eight random bytes, the
    generated filename matches
    [^[0-9a-f]{8}_[0-9a-f]{16}_[0-9]+\.[^.]+$]: eight lowercase hex
    characters, an underscore, sixteen lowercase hex characters, an
    underscore, a decimal number, a dot and a non-empty extension without
    dot.  Stated on the matching relation and on the matcher. *)
Theorem filename_matches_pattern originalName now random :
  length random = 8%nat ->
  Regex.Matches filename_pattern (generateUniqueFilename originalName now random)
  /\ Regex.matchb filename_pattern (generateUniqueFilename originalName now random) = true.
Proof.
  intros Hlen.
  assert (H : Regex.Matches filename_pattern
                (generateUniqueFilename originalName now random)).
  { rewrite generateUniqueFilename_parts. unfold filename_pattern.
    apply Regex.MCat.
    { apply Matches_times_class; [apply hash_prefix_length | apply hash_prefix_lower]. }
    apply (Regex.MCat _ _ "_"); [apply Matches_char|].
    apply Regex.MCat.
    { apply Matches_times_class.
      - rewrite Buffer_toString_hex_length, Hlen. reflexivity.
      - apply hex_of_octets_lower. }
    apply (Regex.MCat _ _ "_"); [apply Matches_char|].
    apply Regex.MCat.
    { apply Matches_plus_class;
        [apply Number_toString_nonempty | apply Number_toString_digits]. }
    apply (Regex.MCat _ _ "."); [apply Matches_char|].
    apply Matches_plus_class; [apply chosen_ext_nonempty|].
    apply not_dot_of_contains, chosen_ext_dot_free. }
  split; [exact H | now apply matchb_spec].
Qed.

Lemma filename_matches_pattern_witness :
  Regex.matchb filename_pattern
    (generateUniqueFilename "holiday.tar.gz" 1735123456789
       [Byte.x00; Byte.xff; Byte.x10; Byte.xab; Byte.x01; Byte.x02; Byte.x03; Byte.x04])
  = true.
Proof.
  exact (proj2 (filename_matches_pattern "holiday.tar.gz" 1735123456789
     [Byte.x00; Byte.xff; Byte.x10; Byte.xab; Byte.x01; Byte.x02; Byte.x03; Byte.x04]
     eq_refl)).
Defined.

(** C9.  When the original name is empty, or ends with ['.'] so that the
    text after its last ['.'] is empty, the generated filename has the
    extension "jpg"; it does not end with a bare dot. *)
Theorem empty_extension_defaults_to_jpg originalName now random :
  originalName = EmptyString \/ ends_with "." originalName = true ->
  extension_of (generateUniqueFilename originalName now random) = Some "jpg"
  /\ ends_with "." (generateUniqueFilename originalName now random) = false.
Proof.
  intros H.
  assert (Hext : chosen_ext originalName = "jpg").
  { destruct H as [-> | H]; [reflexivity|].
    apply ends_with_inv in H as [front ->]. apply chosen_ext_empty_piece. }
  split.
  - now rewrite generated_extension, Hext.
  - rewrite generateUniqueFilename_stem, Hext.
    rewrite ends_with_append by discriminate. reflexivity.
Qed.

Lemma empty_extension_defaults_to_jpg_witness :
  extension_of (generateUniqueFilename "scan.2024." 1735123456789 [Byte.x2a]) = Some "jpg"
  /\ ends_with "." (generateUniqueFilename "scan.2024." 1735123456789 [Byte.x2a]) = false.
Proof.
  apply (empty_extension_defaults_to_jpg "scan.2024." 1735123456789 [Byte.x2a]).
  right. reflexivity.
Defined.

(** C10.  One timestamp serves the whole call: the decimal number read
    back from the generated filename is [now], and the filename's hash part
    is the first eight hex characters of the MD5 digest of the original
    name followed by that same number. *)
Theorem one_timestamp_per_filename originalName now random :
  length random = 8%nat ->
  timestamp_part (generateUniqueFilename originalName now random) = Some now
  /\ hash_part (generateUniqueFilename originalName now random)
     = substring_from0 8 (MD5.hex (originalName +:+ Number_toString now)).
Proof.
  intros Hlen. rewrite generateUniqueFilename_parts.
  set (h := substring_from0 8 (MD5.hex (originalName +:+ Number_toString now))).
  set (r := Buffer_toString_hex random).
  set (t := Number_toString now).
  set (e := chosen_ext originalName).
  assert (Hh : String.length h = 8%nat) by apply hash_prefix_length.
  assert (Hr : String.length r = 16%nat).
  { unfold r. rewrite Buffer_toString_hex_length, Hlen. reflexivity. }
  split.
  - unfold timestamp_part.
    replace (h +:+ "_" +:+ r +:+ "_" +:+ t +:+ "." +:+ e)
      with ((h +:+ "_" +:+ r +:+ "_") +:+ (t +:+ "." +:+ e))
      by (now rewrite !append_assoc).
    assert (Hp : String.length (h +:+ "_" +:+ r +:+ "_") = 26%nat).
    { rewrite !length_append, Hh, Hr. reflexivity. }
    rewrite length_append, Hp.
    replace (26 + String.length (t +:+ "." +:+ e) - 26)%nat
      with (String.length (t +:+ "." +:+ e)) by lia.
    rewrite <- Hp at 1. rewrite substring_skip, substring0_all.
    assert (Hup : forall a b, contains "." a = false ->
                    up_to "." (a +:+ String "." b) = a).
    { induction a as [|c a IH]; simpl; intros b Ha; [reflexivity|].
      apply orb_false_iff in Ha as [Hc Ha]. rewrite Hc. now rewrite IH. }
    change (t +:+ "." +:+ e) with (t +:+ String "." e).
    rewrite Hup by apply digits_dot_free, Number_toString_digits.
    apply Number_toString_parse.
  - unfold hash_part, substring_from0 at 1.
    rewrite <- Hh at 1. apply substring0_append.
Qed.

Lemma one_timestamp_per_filename_witness :
  timestamp_part (generateUniqueFilename "cat_01.png" 1735123456789
     [Byte.x00; Byte.xff; Byte.x10; Byte.xab; Byte.x01; Byte.x02; Byte.x03; Byte.x04])
  = Some 1735123456789.
Proof.
  exact (proj1 (one_timestamp_per_filename "cat_01.png" 1735123456789
     [Byte.x00; Byte.xff; Byte.x10; Byte.xab; Byte.x01; Byte.x02; Byte.x03; Byte.x04]
     eq_refl)).
Defined.

(** ** The calendar behind toISOString *)

Lemma leap_day_spec y :
  Date.leap_day y = 1 /\ y mod 4 = 0 /\ (y mod 100 <> 0 \/ y mod 400 = 0)
  \/ Date.leap_day y = 0 /\ (y mod 4 <> 0 \/ (y mod 100 = 0 /\ y mod 400 <> 0)).
Proof.
  unfold Date.leap_day, Date.InLeapYear.
  destruct (N.eqb_spec (y mod 4) 0), (N.eqb_spec (y mod 100) 0),
    (N.eqb_spec (y mod 400) 0); cbn [negb]; auto 10.
Qed.

(** 1 March of the year [400 e + r], and 1 January of the next year, in
    days since 1 January 1970 (shifted by the 719468 days from 1 March 0). *)
Lemma march_first (e r : N) :
  r <= 399 -> 1970 <= 400 * e + r ->
  Date.DayFromYear (400 * e + r) + 59 + Date.leap_day (400 * e + r) + 719468
  = 146097 * e + 365 * r + r / 4 - r / 100.
Proof.
  intros Hr Hy. destruct (leap_day_spec (400 * e + r)) as [(-> & H)|(-> & H)];
    unfold Date.DayFromYear; lia.
Qed.

Lemma january_first_next (e r : N) :
  r <= 399 -> 1970 <= 400 * e + r + 1 ->
  Date.DayFromYear (400 * e + r + 1) + 719468
  = 146097 * e + 365 * r + r / 4 - r / 100 + 306.
Proof. intros Hr Hy. unfold Date.DayFromYear. lia. Qed.

Lemma DaysBeforeMonth_from_march (k : N) (leap : bool) :
  k <= 10 ->
  Date.DaysBeforeMonth (k + 3) leap
  = (153 * k + 2) / 5 + 59 + (if leap then 1 else 0).
Proof.
  intros Hk.
  assert (Hcases : k = 0 \/ k = 1 \/ k = 2 \/ k = 3 \/ k = 4 \/ k = 5 \/ k = 6
                   \/ k = 7 \/ k = 8 \/ k = 9 \/ k = 10) by lia.
  destruct leap;
    destruct Hcases as [-> | [-> | [-> | [-> | [-> | [-> | [-> | [-> | [-> | [-> | ->]]]]]]]]]];
    reflexivity.
Qed.

(** [civil_from_days] is the ECMAScript calendar: the date it returns for a
    day number is a day of a month of a year, and counting the days from
    1 January 1970 to that date gives the day number back. *)
Lemma civil_from_days_correct (days : N) :
  let '(y, m, d) := Date.civil_from_days days in
  1 <= m <= 12 /\ 1 <= d
  /\ Date.DaysBeforeMonth m (Date.InLeapYear y) + d
     <= Date.DaysBeforeMonth (m + 1) (Date.InLeapYear y)
  /\ Date.DayFromYear y + Date.DaysBeforeMonth m (Date.InLeapYear y) + d = days + 1.
Proof.
  unfold Date.civil_from_days. cbv zeta.
  set (z := days + 719468).
  set (era := z / 146097).
  set (doe := z mod 146097).
  set (yoe := (doe - doe / 1460 + doe / 36524 - doe / 146096) / 365).
  set (doy := doe - (365 * yoe + yoe / 4 - yoe / 100)).
  set (mp := (5 * doy + 2) / 153).
  assert (Hz : days + 719468 = 146097 * era + doe) by (subst era doe z; lia).
  assert (Hyoe : yoe <= 399) by (subst yoe doe; lia).
  assert (Hdoy : doy <= 365) by (subst doy yoe doe; lia).
  assert (Hdoe : doe = 365 * yoe + yoe / 4 - yoe / 100 + doy) by (subst doy yoe doe; lia).
  assert (Hleap : doy = 365 ->
                  (yoe + 1) mod 4 = 0 /\ ((yoe + 1) mod 100 <> 0 \/ yoe = 399))
    by (subst doy yoe doe; lia).
  assert (Hmp : 153 * mp <= 5 * doy + 2 < 153 * (mp + 1)) by (subst mp; lia).
  assert (Hqc : yoe / 100 <= yoe / 4) by lia.
  clearbody mp doy yoe doe era. subst doe. clear z.
  replace (yoe + era * 400) with (400 * era + yoe) by lia.
  destruct (N.ltb_spec mp 10) as [Hm | Hm].
  - (* March to December of the year 400 era + yoe *)
    assert (Hy : 1970 <= 400 * era + yoe) by lia.
    pose proof (march_first era yoe Hyoe Hy) as Hmarch.
    replace (mp + 3 <=? 2) with false by (symmetry; apply N.leb_gt; lia).
    rewrite N.add_0_r. unfold Date.leap_day in Hmarch. clear Hleap Hy Hyoe.
    replace (mp + 3 + 1) with (mp + 1 + 3) by lia.
    rewrite !DaysBeforeMonth_from_march by lia.
    set (q := yoe / 4) in *. set (c := yoe / 100) in *.
    set (l := if Date.InLeapYear (400 * era + yoe) then 1 else 0) in *.
    set (J := Date.DayFromYear (400 * era + yoe)) in *.
    clearbody q c l J. lia.
  - (* January and February of the next year *)
    assert (Hy : 1970 <= 400 * era + yoe + 1) by lia.
    pose proof (january_first_next era yoe Hyoe Hy) as Hjan.
    replace (mp - 9 <=? 2) with true by (symmetry; apply N.leb_le; lia).
    assert (Hfeb : doy = 365 -> Date.InLeapYear (400 * era + yoe + 1) = true).
    { intros Hd. destruct (Hleap Hd) as [H4 H100].
      destruct (leap_day_spec (400 * era + yoe + 1)) as [(Hl & H)|(Hl & H)];
        unfold Date.leap_day in Hl;
        destruct (Date.InLeapYear (400 * era + yoe + 1));
        try reflexivity; try discriminate.
      exfalso. clear - H4 H100 H Hyoe. lia. }
    assert (Hcases : mp = 10 \/ mp = 11) by lia.
    set (q := yoe / 4) in *. set (c := yoe / 100) in *.
    set (J := Date.DayFromYear (400 * era + yoe + 1)) in *.
    clear Hleap. clearbody q c J.
    destruct Hcases as [-> | ->].
    + change (Date.DaysBeforeMonth (10 - 9) ?b) with 0.
      change (Date.DaysBeforeMonth (10 - 9 + 1) ?b) with 31.
      change ((153 * 10 + 2) / 5) with 306. clear Hfeb. lia.
    + change (Date.DaysBeforeMonth (11 - 9) ?b) with 31.
      change (Date.DaysBeforeMonth (11 - 9 + 1) ?b) with (59 + if b then 1 else 0).
      change ((153 * 11 + 2) / 5) with 337.
      destruct (Date.InLeapYear (400 * era + yoe + 1)).
      * clear Hfeb. lia.
      * assert (doy <> 365) by (intros Hd; now discriminate Hfeb).
        clear Hfeb. lia.
Qed.

(** ** toISOString writes well-formed ISO-8601 *)

Lemma digit_is_digit n : is_digit (Date.digit n) = true.
Proof.
  unfold is_digit, Date.digit. rewrite N_ascii_embedding by lia.
  apply andb_true_iff; split; apply N.leb_le; lia.
Qed.

Lemma value_digit n : ISO8601.value (Date.digit n) = n mod 10.
Proof.
  unfold ISO8601.value, Date.digit. rewrite N_ascii_embedding by lia. lia.
Qed.

Lemma digit_not_sign n :
  Ascii.eqb (Date.digit n) "+" || Ascii.eqb (Date.digit n) "-" = false.
Proof.
  apply orb_false_iff; split; apply Ascii.eqb_neq; intros H;
    apply (f_equal N_of_ascii) in H; unfold Date.digit in H;
    rewrite N_ascii_embedding in H by lia; simpl in H; lia.
Qed.

(** Reading back the [k] digits written by [pad]. *)
Lemma digits_pad (k j : nat) (acc n : N) (rest : string) :
  ISO8601.digits (k + j) acc (Date.pad k n +:+ rest)
  = ISO8601.digits j (acc * 10 ^ N.of_nat k + n mod 10 ^ N.of_nat k) rest.
Proof.
  revert j acc n rest. induction k as [|k IH]; intros j acc n rest.
  - simpl. f_equal. rewrite N.mod_1_r. lia.
  - cbn [Date.pad]. rewrite append_assoc.
    replace (Datatypes.S k + j)%nat with (k + Datatypes.S j)%nat by lia.
    rewrite IH. cbn [ISO8601.digits String.append].
    rewrite digit_is_digit, value_digit. f_equal.
    rewrite Nat2N.inj_succ, N.pow_succ_r'.
    rewrite (N.Div0.mod_mul_r n 10 (10 ^ N.of_nat k)). lia.
Qed.

Lemma field_pad (k : nat) (lo hi n : N) (rest : string) :
  n < 10 ^ N.of_nat k -> lo <= n <= hi ->
  ISO8601.field k lo hi (Date.pad k n +:+ rest) = Some rest.
Proof.
  intros Hk [Hlo Hhi]. unfold ISO8601.field.
  replace k with (k + 0)%nat at 1 by lia.
  rewrite digits_pad. cbn [ISO8601.digits].
  rewrite N.mod_small by exact Hk. rewrite N.mul_0_l, N.add_0_l.
  now rewrite (proj2 (N.leb_le lo n) Hlo), (proj2 (N.leb_le n hi) Hhi).
Qed.

Lemma pad_first (k : nat) (n : N) (rest : string) :
  exists c tail, Date.pad (Datatypes.S k) n +:+ rest = String c tail
                 /\ is_digit c = true
                 /\ Ascii.eqb c "+" || Ascii.eqb c "-" = false.
Proof.
  revert n rest. induction k as [|k IH]; intros n rest.
  - exists (Date.digit n), rest. repeat split;
      [apply digit_is_digit | apply digit_not_sign].
  - cbn [Date.pad]. rewrite append_assoc.
    destruct (IH (n / 10) (String (Date.digit n) "" +:+ rest)) as (c & tail & E & Hc).
    cbn [Date.pad] in E. exists c, tail. now split.
Qed.

Lemma year_string_read (y : N) (rest : string) :
  y < 1000000 ->
  ISO8601.year (Date.year_string y +:+ rest) = Some (y, rest).
Proof.
  intros Hy. unfold Date.year_string.
  destruct (N.leb_spec y 9999) as [Hsmall | Hbig].
  - destruct (pad_first 3 y rest) as (c & tail & E & _ & Hsign).
    unfold ISO8601.year. rewrite E, Hsign, <- E.
    change 4%nat with (4 + 0)%nat. rewrite digits_pad. cbn [ISO8601.digits].
    f_equal. f_equal. change (10 ^ N.of_nat 4) with 10000. lia.
  - cbn [String.append ISO8601.year]. simpl (Ascii.eqb _ _ || _).
    change 6%nat with (6 + 0)%nat. rewrite digits_pad. cbn [ISO8601.digits].
    f_equal. f_equal. change (10 ^ N.of_nat 6) with 1000000. lia.
Qed.

(** Month and day of [civil_from_days] are calendar values; the year of a
    representable day has at most six digits. *)
Lemma civil_from_days_range (days : N) :
  days <= 100000000 ->
  let '(y, m, d) := Date.civil_from_days days in
  y < 1000000 /\ 1 <= m <= 12 /\ 1 <= d <= 31.
Proof.
  intros Hd. unfold Date.civil_from_days. cbv zeta.
  set (doe := (days + 719468) mod 146097).
  set (yoe := (doe - doe / 1460 + doe / 36524 - doe / 146096) / 365).
  set (doy := doe - (365 * yoe + yoe / 4 - yoe / 100)).
  set (mp := (5 * doy + 2) / 153).
  assert (Hdoy : doy <= 365) by (subst doy yoe doe; lia).
  assert (Hyoe : yoe <= 399) by (subst yoe doe; lia).
  assert (Hmp : mp <= 11) by (subst mp; lia).
  assert (Hday : 1 <= doy - (153 * mp + 2) / 5 + 1 <= 31) by (subst mp; lia).
  assert (Hera : (days + 719468) / 146097 <= 689) by lia.
  destruct (N.ltb_spec mp 10) as [Hm | Hm].
  - destruct (N.leb_spec (mp + 3) 2); repeat split; lia.
  - destruct (N.leb_spec (mp - 9) 2); repeat split; lia.
Qed.

Lemma toISOString_well_formed (t : N) :
  t <= Date.maxTime ->
  exists timestamp, Date.toISOString t = Some timestamp
                    /\ ISO8601.well_formed timestamp = true.
Proof.
  intros Ht. unfold Date.toISOString.
  rewrite (proj2 (N.leb_le _ _) Ht).
  assert (Hdays : Date.Day t <= 100000000).
  { unfold Date.Day, Date.msPerDay. unfold Date.maxTime in Ht. lia. }
  pose proof (civil_from_days_range _ Hdays) as Hciv.
  destruct (Date.civil_from_days (Date.Day t)) as [[y m] d].
  destruct Hciv as (Hy & Hm & Hd).
  eexists; split; [reflexivity|].
  unfold ISO8601.well_formed.
  rewrite year_string_read by exact Hy. cbn [mbind option_bind snd ISO8601.expect String.append].
  rewrite Ascii.eqb_refl. cbn [mbind option_bind].
  rewrite field_pad by (change (10 ^ N.of_nat 2) with 100; lia).
  cbn [mbind option_bind snd ISO8601.expect String.append].
  rewrite Ascii.eqb_refl. cbn [mbind option_bind].
  rewrite field_pad by (change (10 ^ N.of_nat 2) with 100; lia).
  cbn [mbind option_bind snd ISO8601.expect String.append].
  rewrite Ascii.eqb_refl. cbn [mbind option_bind].
  rewrite field_pad
    by (change (10 ^ N.of_nat 2) with 100; unfold Date.HourFromTime; lia).
  cbn [mbind option_bind snd ISO8601.expect String.append].
  rewrite Ascii.eqb_refl. cbn [mbind option_bind].
  rewrite field_pad
    by (change (10 ^ N.of_nat 2) with 100; unfold Date.MinFromTime; lia).
  cbn [mbind option_bind snd ISO8601.expect String.append].
  rewrite Ascii.eqb_refl. cbn [mbind option_bind].
  rewrite field_pad
    by (change (10 ^ N.of_nat 2) with 100; unfold Date.SecFromTime; lia).
  cbn [mbind option_bind snd ISO8601.expect String.append].
  rewrite Ascii.eqb_refl. cbn [mbind option_bind].
  rewrite field_pad
    by (change (10 ^ N.of_nat 3) with 1000; unfold Date.msFromTime; lia).
  reflexivity.
Qed.

(** ** The upload middleware *)

(** When [upload.single] lets the request through, every file part was an
    image within the size limit, and [req.file] is only set by a file. *)
Lemma single_parts_continue name (filesLeft : nat) (parts : list FilePart) acc r :
  single_parts name filesLeft parts acc = Continue r ->
  Forall (fun p => is_image p = true /\ oversized p = false) (List.filter is_file parts)
  /\ (List.filter is_file parts = [] -> r = acc).
Proof.
  revert filesLeft acc. induction parts as [|p parts IH]; intros filesLeft acc H;
    cbn [single_parts List.filter] in *.
  - injection H as ->. split; [constructor | reflexivity].
  - replace (is_file p) with (negb (String.eqb (originalname p) "")) by reflexivity.
    destruct (String.eqb (originalname p) "") eqn:Hname; cbn [negb].
    + exact (IH _ _ H).
    + destruct (negb (String.eqb (fieldname p) name)); [discriminate|].
      destruct filesLeft as [|remaining]; [discriminate|].
      unfold fileFilter in H. fold (is_image p) in H.
      destruct (is_image p) eqn:Himg; [|discriminate].
      fold (oversized p) in H.
      destruct (oversized p) eqn:Hsize; [discriminate|].
      destruct (IH _ _ H) as [Hall _].
      split; [constructor; [now split | exact Hall] | discriminate].
Qed.

Lemma upload_single_continue name b r :
  upload_single name b = Continue r ->
  has_non_image b = false /\ has_oversized b = false
  /\ (missing_file b = true -> r = None).
Proof.
  unfold has_non_image, has_oversized, missing_file.
  destruct b as [|parts]; simpl.
  - intros [= <-]. repeat split.
  - intros H. apply single_parts_continue in H as [Hall Hnone].
    repeat split.
    + apply not_true_is_false. intros E. apply existsb_exists in E as (p & Hp & E).
      rewrite List.Forall_forall in Hall. destruct (Hall p Hp) as [Himg _].
      rewrite Himg in E. discriminate.
    + apply not_true_is_false. intros E. apply existsb_exists in E as (p & Hp & E).
      rewrite List.Forall_forall in Hall. destruct (Hall p Hp) as [_ Hsize].
      congruence.
    + destruct (List.filter is_file parts); [intros _; now apply Hnone | discriminate].
Qed.

(** The first file of the body decides when it is refused. *)
Lemma single_parts_first name p rest :
  is_file p = true -> fieldname p = name ->
  single_parts name 1 (p :: rest) None =
    if is_image p then
      if oversized p then NextError (MulterError LIMIT_FILE_SIZE)
      else single_parts name 0 rest (Some (stored p))
    else NextError (PlainError "Only image files allowed").
Proof.
  intros Hfile Hfield. subst name.
  unfold is_file in Hfile. apply negb_true_iff in Hfile.
  cbn [single_parts]. rewrite Hfile, String.eqb_refl. cbn [negb].
  unfold fileFilter, is_image, oversized. now destruct (startsWith _ _).
Qed.

(** ** Responses *)

Lemma app_upload env b w :
  app env (upload_request b) w =
    match upload_single "photo" b with
    | NextError err => (errorHandler err, w)
    | Continue file => uploadHandler env file w
    end.
Proof.
  unfold app, express_json, routes, upload_middleware, finish, upload_request.
  cbn [method path reqBody rejection].
  change (route_matches "/upload" "/upload") with true. cbv iota.
  destruct (upload_single "photo" b) as [file | err]; [|now destruct b].
  destruct b; now destruct (uploadHandler env file w).
Qed.

(** A first file that is not an image ends the request with the error of
    [fileFilter], sent by the error-handling middleware. *)
Lemma non_image_answer env w p rest :
  is_file p = true -> fieldname p = "photo" -> is_image p = false ->
  (app env (upload_request (Multipart (p :: rest))) w).1
  = failure 500 "Only image files allowed".
Proof.
  intros Hfile Hfield Himg. rewrite app_upload. unfold upload_single.
  rewrite single_parts_first by assumption. rewrite Himg. reflexivity.
Qed.

(** C2 (as the code behaves).  The claim is that an upload whose file is
    not an image is answered with status 400.  [fileFilter] passes a plain
    [Error] to multer, which hands it to the error-handling middleware;
    that middleware answers 400 only for [LIMIT_FILE_SIZE] and sends every
    other error with status 500.  So the upload of a file that is not an
    image is answered 500 with the error "Only image files allowed". *)
Theorem non_image_upload_answered_500 env w p rest :
  is_file p = true -> fieldname p = "photo" -> is_image p = false ->
  app env (upload_request (Multipart (p :: rest))) w
  = (failure 500 "Only image files allowed", w).
Proof.
  intros Hfile Hfield Himg. rewrite app_upload. unfold upload_single.
  rewrite single_parts_first by assumption. rewrite Himg. reflexivity.
Qed.

Lemma non_image_upload_answered_500_witness :
  app sample_env
    (upload_request (Multipart [part "photo" "notes.txt" "text/plain" [Byte.x68; Byte.x69]]))
    empty_world
  = (failure 500 "Only image files allowed", empty_world).
Proof.
  apply (non_image_upload_answered_500 sample_env empty_world
           (part "photo" "notes.txt" "text/plain" [Byte.x68; Byte.x69]) []);
    reflexivity.
Defined.

(** The segment captured by the route is never empty. *)
Lemma match_delete_nonempty path segment :
  match_delete path = Some segment -> segment <> EmptyString.
Proof.
  unfold match_delete. destruct (startsWith _ _); [|discriminate].
  destruct (String.eqb _ "") eqn:E; simpl; [discriminate|].
  destruct (contains _ _); [discriminate|].
  intros [= <-]. now apply String.eqb_neq.
Qed.

(** What the guard does when the handler is run on an empty name. *)
Lemma deleteHandler_guard env w :
  deleteHandler env "" w = (failure 400 "Filename is required", w).
Proof. reflexivity. Qed.

(** C3 (as the code behaves).  The claim is that [DELETE /delete/] with an
    empty filename segment is answered 400 "Filename is required".  The
    route ['/delete/:filename'] only matches a non-empty segment, so this
    request (let through by [express.json()], whatever else it carries)
    reaches no handler and gets the 404 of the final handler, and no path
    at all brings an empty segment to the guard at line 115. *)
Theorem delete_empty_segment_not_found env b (r : option Error) (c : bool) w :
  app env {| method := DELETE; path := "/delete/"; reqBody := b;
             rejection := option_map ByMulter r; fresh := c |} w
  = ({| status := 404; body := Page "Cannot DELETE /delete/" |}, w)
  /\ match_delete "/delete/" = None
  /\ (forall path, match_delete path <> Some EmptyString).
Proof.
  split; [now destruct r, b|]. split; [reflexivity|].
  intros path H. now apply match_delete_nonempty in H.
Qed.

(** C5.  An upload turned away as a client input error (no file, a file
    that is not an image, or a file above the size limit) makes no call to
    the storage gateway: the bucket and the log of gateway calls are as
    before, and the answer is not a success. *)
Theorem rejected_upload_leaves_storage env w b :
  client_input_error b = true ->
  (app env (upload_request b) w).2 = w
  /\ status (app env (upload_request b) w).1 <> 200.
Proof.
  intros Hrej. rewrite app_upload.
  destruct (upload_single "photo" b) as [file | err] eqn:Hup.
  - apply upload_single_continue in Hup as (Himg & Hsize & Hnone).
    unfold client_input_error in Hrej. rewrite Himg, Hsize, !orb_false_r in Hrej.
    rewrite (Hnone Hrej). cbn. split; [reflexivity | discriminate].
  - cbn. split; [reflexivity|].
    destruct err as [[]|m]; cbn; discriminate.
Qed.

Lemma rejected_upload_leaves_storage_witness :
  (app sample_env
     (upload_request (Multipart [part "photo" "notes.txt" "text/plain" [Byte.x68; Byte.x69]]))
     empty_world).2 = empty_world
  /\ status (app sample_env
     (upload_request (Multipart [part "photo" "notes.txt" "text/plain" [Byte.x68; Byte.x69]]))
     empty_world).1 <> 200.
Proof.
  apply (rejected_upload_leaves_storage sample_env empty_world
    (Multipart [part "photo" "notes.txt" "text/plain" [Byte.x68; Byte.x69]])).
  reflexivity.
Defined.

(** C6 (as stated) fails: a body whose only file is in the field "avatar"
    has no part in the field "photo", and it is answered 500
    "Unexpected field", not 400 "No photo file provided". *)
Lemma no_photo_field_counterexample :
  no_field "photo" (Multipart [part "avatar" "me.png" "image/png" [Byte.x89]]) = true
  /\ (app sample_env
        (upload_request (Multipart [part "avatar" "me.png" "image/png" [Byte.x89]]))
        empty_world).1
     = failure 500 "Unexpected field"
  /\ (app sample_env
        (upload_request (Multipart [part "avatar" "me.png" "image/png" [Byte.x89]]))
        empty_world).1
     <> failure 400 "No photo file provided".
Proof. repeat split. discriminate. Qed.

Lemma single_parts_skip name (filesLeft : nat) (pre parts : list FilePart) acc :
  forallb (fun q => negb (is_file q)) pre = true ->
  single_parts name filesLeft (pre ++ parts) acc = single_parts name filesLeft parts acc.
Proof.
  induction pre as [|q pre IH]; [reflexivity|].
  cbn [forallb List.app single_parts]. intros H. apply andb_true_iff in H as [Hq Hpre].
  unfold is_file in Hq. rewrite negb_involutive in Hq. rewrite Hq. exact (IH Hpre).
Qed.

Lemma missing_file_parts (parts : list FilePart) :
  missing_file (Multipart parts) = true ->
  forallb (fun q => negb (is_file q)) parts = true.
Proof.
  unfold missing_file. cbn [file_parts].
  induction parts as [|q parts IH]; [reflexivity|].
  cbn [List.filter forallb]. destruct (is_file q); [discriminate|]. exact IH.
Qed.

(** C6 (amended).  Every POST /upload request that the body parsers read
    without error ([express.json()] and multer raise none) and that
    carries no file (no multipart body, or only parts without a filename)
    is answered with status 400 and the body [{success: false, error: "No
    photo file provided"}]; the storage is not touched. *)
Theorem upload_without_file env req w :
  method req = POST -> route_matches "/upload" (path req) = true ->
  rejection req = None ->
  missing_file (reqBody req) = true ->
  app env req w = (failure 400 "No photo file provided", w).
Proof.
  intros Hpost Hroute Hrej Hmiss.
  unfold app, express_json, routes, upload_middleware, finish.
  rewrite Hpost, Hrej, Hroute.
  destruct (reqBody req) as [|parts]; [reflexivity|].
  cbn [upload_single].
  rewrite <- (app_nil_r parts), single_parts_skip by now apply missing_file_parts.
  reflexivity.
Qed.

Lemma upload_without_file_witness :
  app sample_env
      {| method := POST; path := "/upload";
         reqBody := Multipart [part "photo" "" "application/octet-stream" []];
         rejection := None; fresh := false |}
      empty_world
  = (failure 400 "No photo file provided", empty_world).
Proof.
  apply (upload_without_file sample_env
           {| method := POST; path := "/upload";
              reqBody := Multipart [part "photo" "" "application/octet-stream" []];
              rejection := None; fresh := false |}
           empty_world); reflexivity.
Defined.

Lemma six_megabytes_oversized field name type :
  oversized (part field name type six_megabytes) = true.
Proof.
  unfold oversized, part, six_megabytes. cbn [buffer].
  rewrite repeat_length, N2Nat.id. reflexivity.
Qed.

(** C7 (as stated) fails: a six-megabyte file that is not an image is
    refused by [fileFilter] before its content is read, and is answered
    500 "Only image files allowed", not 400 "File too large (max 5MB)". *)
Lemma oversized_upload_counterexample :
  has_oversized (Multipart [part "photo" "dump.bin" "application/zip" six_megabytes]) = true
  /\ (app sample_env
        (upload_request (Multipart [part "photo" "dump.bin" "application/zip" six_megabytes]))
        empty_world).1
     = failure 500 "Only image files allowed"
  /\ (app sample_env
        (upload_request (Multipart [part "photo" "dump.bin" "application/zip" six_megabytes]))
        empty_world).1
     <> failure 400 "File too large (max 5MB)".
Proof.
  split.
  - unfold has_oversized. cbn [file_parts List.filter].
    replace (is_file (part "photo" "dump.bin" "application/zip" six_megabytes))
      with true by reflexivity.
    cbn [existsb]. now rewrite six_megabytes_oversized.
  - rewrite non_image_answer by reflexivity. split; [reflexivity | discriminate].
Qed.

(** C7 (amended).  Every POST /upload request whose first file is in the
    field "photo", has an image MIME type and exceeds 5 MB (5*1024*1024
    bytes) is answered with status 400 and the error "File too large (max
    5MB)"; the storage is not touched.  The first file is the first part
    with a filename that multer reads: the parts before it have none and
    are skipped, and what follows it (more parts, or a failure of the
    parser) is no longer looked at. *)
Theorem oversized_image_answered_400 env req w pre p rest :
  method req = POST -> route_matches "/upload" (path req) = true ->
  reqBody req = Multipart (pre ++ p :: rest) ->
  forallb (fun q => negb (is_file q)) pre = true ->
  is_file p = true -> fieldname p = "photo" -> is_image p = true ->
  oversized p = true ->
  app env req w = (failure 400 "File too large (max 5MB)", w).
Proof.
  intros Hpost Hroute Hbody Hpre Hfile Hfield Himg Hsize.
  unfold app, express_json, routes, upload_middleware, finish.
  rewrite Hpost, Hbody, Hroute. cbn [upload_single].
  rewrite single_parts_skip by assumption.
  rewrite single_parts_first by assumption. rewrite Himg, Hsize.
  now destruct (rejection req) as [[]|].
Qed.

Lemma oversized_image_answered_400_witness :
  app sample_env
    {| method := POST; path := "/upload";
       reqBody := Multipart [part "caption" "" "text/plain" [];
                             part "photo" "panorama.png" "image/png" six_megabytes;
                             part "photo" "second.png" "image/png" []];
       rejection := None; fresh := false |}
    empty_world
  = (failure 400 "File too large (max 5MB)", empty_world).
Proof.
  apply (oversized_image_answered_400 sample_env
           {| method := POST; path := "/upload";
              reqBody := Multipart [part "caption" "" "text/plain" [];
                                    part "photo" "panorama.png" "image/png" six_megabytes;
                                    part "photo" "second.png" "image/png" []];
              rejection := None; fresh := false |}
           empty_world
           [part "caption" "" "text/plain" []]
           (part "photo" "panorama.png" "image/png" six_megabytes)
           [part "photo" "second.png" "image/png" []]);
    [reflexivity | reflexivity | reflexivity | reflexivity | reflexivity
    | reflexivity | reflexivity | apply six_megabytes_oversized].
Defined.

(** C8 (as stated) fails: [express.json()] runs before every route, so a
    GET /health request with a JSON body that it cannot parse never
    reaches the route and is answered 500 with the parser's message; and
    a conditional GET /health that Express finds fresh (an If-None-Match
    header that matches any entity tag) is answered 304 without a body. *)
Lemma health_counterexample :
  (app sample_env
       {| method := GET; path := "/health"; reqBody := NotMultipart;
          rejection := Some (ByJson "Unexpected end of JSON input");
          fresh := false |}
       empty_world).1
  = failure 500 "Unexpected end of JSON input"
  /\ status (app sample_env
               {| method := GET; path := "/health"; reqBody := NotMultipart;
                  rejection := Some (ByJson "Unexpected end of JSON input");
                  fresh := false |}
               empty_world).1 <> 200
  /\ (app sample_env
        {| method := GET; path := "/health"; reqBody := NotMultipart;
           rejection := None; fresh := true |}
        empty_world).1
     = {| status := 304; body := NoBody |}.
Proof. repeat split. discriminate. Qed.

(** C8 (amended).  Every GET /health request that [express.json()] lets
    through and that is not a conditional request Express finds fresh is
    answered with status 200 and a body holding status "OK", service
    "Photo Upload API" and a timestamp that is a well-formed ISO-8601
    string (the clock showing a time a Date can hold). *)
Theorem health_answers_ok env req w :
  method req = GET -> route_matches "/health" (path req) = true ->
  express_json req = Continue tt -> fresh req = false ->
  now env <= Date.maxTime ->
  exists timestamp,
    app env req w
    = ({| status := 200;
          body := Json (JObj [("status", JStr "OK");
                              ("timestamp", JStr timestamp);
                              ("service", JStr "Photo Upload API")]) |}, w)
    /\ Date.toISOString (now env) = Some timestamp
    /\ ISO8601.well_formed timestamp = true.
Proof.
  intros Hget Hroute Hjson Hfresh Hnow.
  destruct (toISOString_well_formed (now env) Hnow) as (timestamp & Hiso & Hwf).
  exists timestamp. unfold app, routes, finish.
  rewrite Hget, Hjson, Hroute, Hfresh. unfold health. rewrite Hiso.
  repeat split; assumption.
Qed.

Lemma health_answers_ok_witness :
  exists timestamp,
    app sample_env
        {| method := GET; path := "/health"; reqBody := NotMultipart;
           rejection := None; fresh := false |}
        empty_world
    = ({| status := 200;
          body := Json (JObj [("status", JStr "OK");
                              ("timestamp", JStr timestamp);
                              ("service", JStr "Photo Upload API")]) |}, empty_world)
    /\ Date.toISOString (now sample_env) = Some timestamp
    /\ ISO8601.well_formed timestamp = true.
Proof.
  apply (health_answers_ok sample_env
           {| method := GET; path := "/health"; reqBody := NotMultipart;
              rejection := None; fresh := false |} empty_world);
    [reflexivity | reflexivity | reflexivity | reflexivity | vm_compute; discriminate].
Defined.

(** ** Test vectors *)

Example md5_empty : MD5.hex "" = "d41d8cd98f00b204e9800998ecf8427e".
Proof. vm_compute. reflexivity. Qed.

Example md5_abc : MD5.hex "abc" = "900150983cd24fb0d6963f7d28e17f72".
Proof. vm_compute. reflexivity. Qed.

Example md5_fox :
  MD5.hex "The quick brown fox jumps over the lazy dog"
  = "9e107d9d372bb6826bd81d3542a419d6".
Proof. vm_compute. reflexivity. Qed.

(** 56 bytes: the padding spills into a second block. *)
Example md5_two_blocks :
  MD5.hex "aaaaaaaaaaaaaaaaaaaaaaaaaaaaaaaaaaaaaaaaaaaaaaaaaaaaaaaa"
  = "3b0c8ac703f828b04c6c197006d17218".
Proof. vm_compute. reflexivity. Qed.

Example toISOString_epoch : Date.toISOString 0 = Some "1970-01-01T00:00:00.000Z".
Proof. vm_compute. reflexivity. Qed.

Example toISOString_leap_day :
  Date.toISOString 951868799999 = Some "2000-02-29T23:59:59.999Z".
Proof. vm_compute. reflexivity. Qed.

Example toISOString_2024 :
  Date.toISOString 1735123456789 = Some "2024-12-25T10:44:16.789Z".
Proof. vm_compute. reflexivity. Qed.

Example toISOString_last : Date.toISOString Date.maxTime = Some "+275760-09-13T00:00:00.000Z".
Proof. vm_compute. reflexivity. Qed.

Example toISOString_beyond : Date.toISOString (Date.maxTime + 1) = None.
Proof. vm_compute. reflexivity. Qed.

Example split_examples :
  split "." "a.b." = ["a"; "b"; ""] /\ split "." "" = [""] /\ split "." "photo" = ["photo"].
Proof. repeat split. Qed.

Example route_examples :
  match_delete "/delete/a.png" = Some "a.png"
  /\ match_delete "/Delete/a.png/" = Some "a.png"
  /\ match_delete "/delete/a/b" = None
  /\ match_delete "/delete" = None
  /\ route_matches "/health" "/Health/" = true.
Proof. repeat split. Qed.

(* ===================================================================== *)
(** * Further properties of the code *)
(* ===================================================================== *)

(** ** generateUniqueFilename and the primitives it calls *)

Lemma join_cons_char sep c (x : string) (rest : list string) :
  join sep (String c x :: rest) = String c (join sep (x :: rest)).
Proof. destruct rest; reflexivity. Qed.

Lemma count_split sep s :
  length (split sep s)
  = Datatypes.S (length (List.filter (fun c => Ascii.eqb c sep) (list_ascii_of_string s))).
Proof.
  induction s as [|c s IH]; [reflexivity|].
  cbn [split list_ascii_of_string List.filter].
  destruct (Ascii.eqb c sep).
  - cbn [length]. now rewrite IH.
  - destruct (split sep s) as [|piece pieces] eqn:E; [discriminate IH|]. exact IH.
Qed.

(** X1.  [split] and [join] are inverse: joining the pieces of
    [s.split(sep)] with [sep] gives [s] back; no piece holds the separator,
    and there is one piece more than there are separators in [s]. *)
Theorem split_join sep s :
  join sep (split sep s) = s
  /\ Forall (fun piece => contains sep piece = false) (split sep s)
  /\ length (split sep s)
     = Datatypes.S (length (List.filter (fun c => Ascii.eqb c sep)
                                         (list_ascii_of_string s))).
Proof.
  split; [|split; [apply split_pieces | apply count_split]].
  induction s as [|c s IH]; [reflexivity|].
  cbn [split]. destruct (Ascii.eqb_spec c sep) as [-> | Hc].
  - pose proof (split_nonempty sep s) as Hne.
    destruct (split sep s) as [|piece pieces]; [contradiction|].
    change (join sep (EmptyString :: piece :: pieces))
      with (String sep (join sep (piece :: pieces))).
    now rewrite IH.
  - pose proof (split_nonempty sep s) as Hne.
    destruct (split sep s) as [|piece pieces]; [contradiction|].
    rewrite join_cons_char. now rewrite IH.
Qed.

(** X2.  A name with an extension keeps it: when the original name is
    [front.ext] with [ext] non-empty and free of ['.'], the generated
    filename has the extension [ext], whatever [front] holds (other dots
    included). *)
Theorem extension_of_dotted_name front ext now random :
  ext <> EmptyString -> contains "." ext = false ->
  extension_of (generateUniqueFilename (front +:+ String "." ext) now random)
  = Some ext.
Proof.
  intros Hne Hdot. rewrite generated_extension. f_equal.
  unfold chosen_ext. rewrite pop_split_append, (split_without _ _ Hdot).
  destruct ext; [contradiction | reflexivity].
Qed.

Lemma extension_of_dotted_name_witness :
  extension_of (generateUniqueFilename "holiday.tar.gz" 1735123456789 [Byte.x2a])
  = Some "gz".
Proof.
  apply (extension_of_dotted_name "holiday.tar" "gz" 1735123456789 [Byte.x2a]);
    [discriminate | reflexivity].
Defined.

Lemma hex_value_digit n : hex_value (hex_digit n) = n mod 16.
Proof.
  unfold hex_value, hex_digit.
  destruct (N.ltb_spec (n mod 16) 10) as [H | H];
    rewrite N_ascii_embedding by lia.
  - replace (48 + n mod 16 <? 58) with true by (symmetry; apply N.ltb_lt; lia). lia.
  - replace (87 + n mod 16 <? 58) with false by (symmetry; apply N.ltb_ge; lia). lia.
Qed.

Lemma octets_of_hex_of_octets bs :
  Forall (fun b => b < 256) bs -> octets_of_hex (hex_of_octets bs) = bs.
Proof.
  induction 1 as [|b bs Hb _ IH]; [reflexivity|].
  cbn [hex_of_octets hex_of_octet String.append octets_of_hex].
  rewrite !hex_value_digit, IH. f_equal. lia.
Qed.

Lemma bytes_below_256 (buf : list Byte.byte) :
  Forall (fun b => b < 256) (map Byte.to_N buf).
Proof.
  induction buf as [|b buf IH]; constructor; [|exact IH].
  pose proof (Byte.to_N_bounded b). lia.
Qed.

Lemma to_N_injective (a b : list Byte.byte) :
  map Byte.to_N a = map Byte.to_N b -> a = b.
Proof.
  revert b; induction a as [|x a IH]; intros [|y b] H; try discriminate; [reflexivity|].
  cbn [map] in H. injection H as Hxy Hab. f_equal; [|now apply IH].
  apply (f_equal Byte.of_N) in Hxy. rewrite !Byte.of_to_N in Hxy. congruence.
Qed.

(** X3.  [buffer.toString('hex')] loses nothing: the text has two lowercase
    hex characters per byte, and reading it back as hex gives the bytes. *)
Theorem hex_round_trip (buf : list Byte.byte) :
  octets_of_hex (Buffer_toString_hex buf) = map Byte.to_N buf
  /\ String.length (Buffer_toString_hex buf) = (2 * length buf)%nat
  /\ all_chars is_lower_hex (Buffer_toString_hex buf) = true.
Proof.
  split; [|split].
  - apply octets_of_hex_of_octets, bytes_below_256.
  - apply Buffer_toString_hex_length.
  - apply hex_of_octets_lower.
Qed.

Lemma timestamp_part_generated originalName now random :
  length random = 8%nat ->
  timestamp_part (generateUniqueFilename originalName now random) = Some now.
Proof.
  intros Hlen. rewrite generateUniqueFilename_parts.
  set (h := substring_from0 8 (MD5.hex (originalName +:+ Number_toString now))).
  set (r := Buffer_toString_hex random).
  set (t := Number_toString now).
  set (e := chosen_ext originalName).
  assert (Hp : String.length (h +:+ "_" +:+ r +:+ "_") = 26%nat).
  { rewrite !length_append. unfold h, r.
    rewrite hash_prefix_length, Buffer_toString_hex_length, Hlen. reflexivity. }
  unfold timestamp_part.
  replace (h +:+ "_" +:+ r +:+ "_" +:+ t +:+ "." +:+ e)
    with ((h +:+ "_" +:+ r +:+ "_") +:+ (t +:+ String "." e))
    by (now rewrite !append_assoc).
  rewrite length_append, Hp.
  replace (26 + String.length (t +:+ String "." e) - 26)%nat
    with (String.length (t +:+ String "." e)) by lia.
  rewrite <- Hp at 1. rewrite substring_skip, substring0_all.
  assert (Hup : forall a b, contains "." a = false ->
                  up_to "." (a +:+ String "." b) = a).
  { induction a as [|c a IH]; simpl; intros b Ha; [reflexivity|].
    apply orb_false_iff in Ha as [Hc Ha]. rewrite Hc. now rewrite IH. }
  rewrite Hup by apply digits_dot_free, Number_toString_digits.
  apply Number_toString_parse.
Qed.

Lemma random_part_generated originalName now random :
  length random = 8%nat ->
  random_part (generateUniqueFilename originalName now random)
  = Buffer_toString_hex random.
Proof.
  intros Hlen. rewrite generateUniqueFilename_parts. unfold random_part.
  set (h := substring_from0 8 (MD5.hex (originalName +:+ Number_toString now))).
  set (r := Buffer_toString_hex random).
  assert (Hh : String.length (h +:+ "_") = 9%nat).
  { rewrite length_append. unfold h. now rewrite hash_prefix_length. }
  assert (Hr : String.length r = 16%nat).
  { unfold r. now rewrite Buffer_toString_hex_length, Hlen. }
  replace (h +:+ "_" +:+ r +:+ "_" +:+ Number_toString now +:+ "." +:+ chosen_ext originalName)
    with ((h +:+ "_") +:+ (r +:+ "_" +:+ Number_toString now +:+ "." +:+ chosen_ext originalName))
    by (now rewrite !append_assoc).
  rewrite <- Hh at 1. rewrite substring_skip. rewrite <- Hr. apply substring0_append.
Qed.

(** X4.  A generated filename determines what it was drawn from: two calls
    that return the same filename used the same timestamp, the same eight
    random bytes and chose the same extension.  So two calls that differ in
    the timestamp or in the random bytes never return the same name. *)
Theorem filename_determines_draw name1 name2 now1 now2 random1 random2 :
  length random1 = 8%nat -> length random2 = 8%nat ->
  generateUniqueFilename name1 now1 random1 = generateUniqueFilename name2 now2 random2 ->
  now1 = now2 /\ random1 = random2 /\ chosen_ext name1 = chosen_ext name2.
Proof.
  intros H1 H2 E. split; [|split].
  - pose proof (timestamp_part_generated name1 now1 random1 H1) as T1.
    pose proof (timestamp_part_generated name2 now2 random2 H2) as T2.
    rewrite E in T1. congruence.
  - pose proof (random_part_generated name1 now1 random1 H1) as R1.
    pose proof (random_part_generated name2 now2 random2 H2) as R2.
    rewrite E, R2 in R1. apply to_N_injective.
    apply (f_equal octets_of_hex) in R1. unfold Buffer_toString_hex in R1.
    rewrite !octets_of_hex_of_octets in R1 by apply bytes_below_256.
    congruence.
  - pose proof (generated_extension name1 now1 random1) as X1.
    pose proof (generated_extension name2 now2 random2) as X2.
    rewrite E in X1. congruence.
Qed.

Lemma filename_determines_draw_witness :
  1735123456789 = 1735123456789
  /\ [Byte.x00; Byte.xff; Byte.x10; Byte.xab; Byte.x01; Byte.x02; Byte.x03; Byte.x04]
     = [Byte.x00; Byte.xff; Byte.x10; Byte.xab; Byte.x01; Byte.x02; Byte.x03; Byte.x04]
  /\ chosen_ext "photo.png" = chosen_ext "photo.png".
Proof.
  apply (filename_determines_draw "photo.png" "photo.png" 1735123456789 1735123456789
    [Byte.x00; Byte.xff; Byte.x10; Byte.xab; Byte.x01; Byte.x02; Byte.x03; Byte.x04]
    [Byte.x00; Byte.xff; Byte.x10; Byte.xab; Byte.x01; Byte.x02; Byte.x03; Byte.x04]);
    reflexivity.
Defined.

(** ** upload.single('photo') with the configured filter and limit *)

Lemma single_parts_sound name (filesLeft : nat) (parts : list FilePart) acc r :
  single_parts name filesLeft parts acc = Continue r ->
  (length (List.filter is_file parts) <= filesLeft)%nat
  /\ Forall (fun p => acceptable name p = true) (List.filter is_file parts)
  /\ r = fold_left (fun _ p => Some (stored p)) (List.filter is_file parts) acc.
Proof.
  revert filesLeft acc. induction parts as [|p parts IH]; intros filesLeft acc H;
    cbn [single_parts List.filter] in *.
  - injection H as ->. repeat split; [cbn; lia | constructor].
  - replace (is_file p) with (negb (String.eqb (originalname p) "")) by reflexivity.
    destruct (String.eqb (originalname p) "") eqn:Hname; cbn [negb].
    + exact (IH _ _ H).
    + destruct (String.eqb (fieldname p) name) eqn:Hfield; cbn [negb] in H;
        [|discriminate].
      destruct filesLeft as [|remaining]; [discriminate|].
      unfold fileFilter in H. fold (is_image p) in H.
      destruct (is_image p) eqn:Himg; [|discriminate].
      fold (oversized p) in H.
      destruct (oversized p) eqn:Hsize; [discriminate|].
      destruct (IH _ _ H) as (Hlen & Hall & Hr).
      repeat split.
      * cbn [length]. lia.
      * constructor; [|exact Hall]. unfold acceptable. now rewrite Hfield, Himg, Hsize.
      * exact Hr.
Qed.

Lemma single_parts_complete name (filesLeft : nat) (parts : list FilePart) acc :
  (length (List.filter is_file parts) <= filesLeft)%nat ->
  Forall (fun p => acceptable name p = true) (List.filter is_file parts) ->
  single_parts name filesLeft parts acc
  = Continue (fold_left (fun _ p => Some (stored p)) (List.filter is_file parts) acc).
Proof.
  revert filesLeft acc. induction parts as [|p parts IH]; intros filesLeft acc Hlen Hall;
    cbn [single_parts List.filter] in *; [reflexivity|].
  revert Hlen Hall.
  replace (is_file p) with (negb (String.eqb (originalname p) "")) by reflexivity.
  destruct (String.eqb (originalname p) "") eqn:Hname; cbn [negb]; intros Hlen Hall.
  - now apply IH.
  - inversion Hall as [|? ? Hp Hrest]; subst.
    unfold acceptable in Hp. apply andb_true_iff in Hp as [Hp Hsize].
    apply andb_true_iff in Hp as [Hfield Himg]. apply negb_true_iff in Hsize.
    rewrite Hfield. cbn [negb length] in *.
    destruct filesLeft as [|remaining]; [lia|].
    unfold fileFilter. fold (is_image p). rewrite Himg.
    fold (oversized p). rewrite Hsize. cbn [fold_left].
    apply IH; [lia | assumption].
Qed.

(** The number of files behind each outcome of the middleware. *)
Lemma upload_single_file_parts (b : ReqBody) :
  (forall f, upload_single "photo" b = Continue (Some f) ->
             exists p, file_parts b = [p])
  /\ (upload_single "photo" b = Continue None -> file_parts b = []).
Proof.
  destruct b as [|parts]; cbn [upload_single file_parts].
  - split; [discriminate | reflexivity].
  - split.
    + intros f H. apply single_parts_sound in H as (Hlen & _ & Hr).
      destruct (List.filter is_file parts) as [|p [|q rest]]; cbn in *;
        [discriminate | now exists p | lia].
    + intros H. apply single_parts_sound in H as (Hlen & _ & Hr).
      destruct (List.filter is_file parts) as [|p [|q rest]]; cbn in *;
        [reflexivity | discriminate | lia].
Qed.

Lemma errorHandler_status err :
  status (errorHandler err) = 400 \/ status (errorHandler err) = 500.
Proof. destruct err as [[]|m]; cbn; auto. Qed.

(** X6.  A body with more than one file is never stored: whatever the
    files are, the request ends in the error-handling middleware with
    status 400 or 500, and the bucket and the log of gateway calls are as
    before. *)
Theorem several_files_refused env w b :
  (2 <= length (file_parts b))%nat ->
  (app env (upload_request b) w).2 = w
  /\ (status (app env (upload_request b) w).1 = 400
      \/ status (app env (upload_request b) w).1 = 500).
Proof.
  intros Hlen. rewrite app_upload.
  destruct (upload_single "photo" b) as [[f|] | err] eqn:Hup.
  - apply (proj1 (upload_single_file_parts b)) in Hup as [p Hp].
    rewrite Hp in Hlen. cbn in Hlen. lia.
  - apply (proj2 (upload_single_file_parts b)) in Hup.
    rewrite Hup in Hlen. cbn in Hlen. lia.
  - cbn. split; [reflexivity | apply errorHandler_status].
Qed.

Lemma several_files_refused_witness :
  (app sample_env
     (upload_request (Multipart [part "photo" "a.png" "image/png" [Byte.x01];
                                 part "photo" "b.png" "image/png" [Byte.x02]]))
     empty_world).2 = empty_world
  /\ (status (app sample_env
        (upload_request (Multipart [part "photo" "a.png" "image/png" [Byte.x01];
                                    part "photo" "b.png" "image/png" [Byte.x02]]))
        empty_world).1 = 400
      \/ status (app sample_env
        (upload_request (Multipart [part "photo" "a.png" "image/png" [Byte.x01];
                                    part "photo" "b.png" "image/png" [Byte.x02]]))
        empty_world).1 = 500).
Proof.
  apply (several_files_refused sample_env empty_world
    (Multipart [part "photo" "a.png" "image/png" [Byte.x01];
                part "photo" "b.png" "image/png" [Byte.x02]])).
  cbn. lia.
Defined.

(** ** What the handlers ask of the storage gateway *)

Lemma upload_single_some (b : ReqBody) (f : UploadedFile) :
  upload_single "photo" b = Continue (Some f) ->
  exists p, file_parts b = [p] /\ acceptable "photo" p = true /\ f = stored p.
Proof.
  destruct b as [|parts]; cbn [upload_single file_parts]; [discriminate|].
  intros H. apply single_parts_sound in H as (Hlen & Hall & Hr).
  destruct (List.filter is_file parts) as [|p [|q rest]]; cbn in *;
    [discriminate | | lia].
  exists p. inversion Hall; subst. repeat split; congruence.
Qed.

Lemma upload_single_one (b : ReqBody) (p : FilePart) :
  file_parts b = [p] -> acceptable "photo" p = true ->
  upload_single "photo" b = Continue (Some (stored p)).
Proof.
  destruct b as [|parts]; cbn [upload_single file_parts]; [discriminate|].
  intros Hp Hacc. rewrite single_parts_complete; rewrite Hp;
    [reflexivity | cbn; lia | now repeat constructor].
Qed.

Lemma uploadHandler_calls env (f : UploadedFile) w :
  calls (uploadHandler env (Some f) w).2
  = calls w ++ [CallUpload
                  (generateUniqueFilename (file_originalname f) (now env) (random env))
                  {| content := file_buffer f; contentType := file_mimetype f |}].
Proof.
  cbn [uploadHandler]. unfold storage_upload.
  destruct (service env); [|reflexivity|reflexivity].
  now destruct (bucket w !! _).
Qed.

Lemma deleteHandler_calls env filename w :
  filename <> EmptyString ->
  calls (deleteHandler env filename w).2 = calls w ++ [CallRemove [filename]].
Proof.
  intros Hne. unfold deleteHandler. rewrite (proj2 (String.eqb_neq _ _) Hne).
  unfold storage_remove. now destruct (service env).
Qed.

(** The upload middleware either ends in an error or does what
    [upload.single] does on the body. *)
Lemma upload_middleware_cases req :
  (exists err, upload_middleware req = NextError err)
  \/ upload_middleware req = upload_single "photo" (reqBody req).
Proof.
  unfold upload_middleware.
  destruct (upload_single "photo" (reqBody req)) as [file | err]; [|left; eauto].
  destruct (reqBody req); [now right|].
  destruct (rejection req) as [[m | err]|]; eauto.
Qed.

(** Whatever [app] does to the world, the routes have done. *)
Lemma app_world env req w :
  (app env req w).2 = w \/ (app env req w).2 = (routes env req w).2.
Proof.
  unfold app.
  destruct (method req), (express_json req), (routes env req w); cbn; auto.
Qed.

(** X7.  Every request makes at most one call to the storage gateway, and
    only two kinds of call exist.  Either the world (bucket and call log)
    is untouched; or a POST whose body holds exactly one file, in the field
    "photo", of an image type and within the size limit, adds one upload
    of that file's bytes and MIME type under the generated filename; or a
    DELETE adds one removal of a single non-empty name.  In particular a
    GET never reaches the gateway, and nothing that is not an image within
    the limit is ever sent to it. *)
Theorem gateway_calls env req w :
  (app env req w).2 = w
  \/ (method req = POST
      /\ exists p, file_parts (reqBody req) = [p] /\ acceptable "photo" p = true
         /\ calls (app env req w).2
            = calls w ++ [CallUpload
                            (generateUniqueFilename (originalname p) (now env) (random env))
                            {| content := buffer p; contentType := mimetype p |}])
  \/ (method req = DELETE
      /\ exists filename, filename <> EmptyString
         /\ calls (app env req w).2 = calls w ++ [CallRemove [filename]]).
Proof.
  destruct (app_world env req w) as [H | H]; [now left|]. rewrite H. clear H.
  unfold routes. destruct (method req) eqn:Hm.
  - left. destruct (route_matches _ _); [destruct (health env)|]; reflexivity.
  - left. destruct (route_matches _ _); [destruct (health env)|]; reflexivity.
  - destruct (route_matches _ _); [|now left].
    destruct (upload_middleware_cases req) as [[err ->] | ->]; [now left|].
    destruct (upload_single "photo" (reqBody req)) as [[f|] | err] eqn:Hup.
    + right; left. split; [reflexivity|].
      apply upload_single_some in Hup as (p & Hp & Hacc & ->).
      exists p. repeat split; try assumption. apply uploadHandler_calls.
    + now left.
    + now left.
  - now left.
  - now left.
  - destruct (match_delete (path req)) as [segment|]; [|now left].
    destruct (decodeURIComponent env segment) as [filename|]; [|now left].
    destruct (String.eqb_spec filename "") as [-> | Hne]; [now left|].
    right; right. split; [reflexivity|].
    exists filename. split; [assumption | now apply deleteHandler_calls].
  - now left.
Qed.

(** X8.  An upload reports the name it asked the gateway to store under.
    For a body with exactly one acceptable file the handler makes one
    gateway call, an upload of the file's bytes and MIME type under the
    generated filename, and answers 200 or 500; when it answers 200, the
    body has [success: true], [data.filename] is the key of that call,
    [data.url] is what the client's [getPublicUrl] gives for that key,
    [data.size] is the number of bytes and [data.type] the MIME type. *)
Theorem upload_reports_stored_name env w b p :
  file_parts b = [p] -> acceptable "photo" p = true ->
  let key := generateUniqueFilename (originalname p) (now env) (random env) in
  let res := (app env (upload_request b) w).1 in
  calls (app env (upload_request b) w).2
  = calls w ++ [CallUpload key {| content := buffer p; contentType := mimetype p |}]
  /\ (status res = 200 \/ status res = 500)
  /\ (status res = 200 ->
      top_field "success" res = Some (JBool true)
      /\ data_field "filename" res = Some (JStr key)
      /\ data_field "url" res = Some (JStr (getPublicUrl env key))
      /\ data_field "size" res = Some (JNum (N.of_nat (length (buffer p))))
      /\ data_field "type" res = Some (JStr (mimetype p))).
Proof.
  intros Hp Hacc key res. subst key res.
  rewrite app_upload, (upload_single_one b p Hp Hacc).
  split; [apply (uploadHandler_calls env (stored p) w)|].
  cbn [uploadHandler stored file_originalname file_buffer file_mimetype file_size].
  destruct (storage_upload env _ _ w) as [[|m|] w']; cbn [fst status failure res_status_json res_json].
  - split; [now left|]. intros _. repeat split.
  - split; [now right | discriminate].
  - split; [now right | discriminate].
Qed.

Lemma upload_reports_stored_name_witness :
  status (app sample_env
            (upload_request (Multipart [part "photo" "cat.png" "image/png" [Byte.x89; Byte.x50]]))
            empty_world).1 = 200
  /\ data_field "filename"
       (app sample_env
          (upload_request (Multipart [part "photo" "cat.png" "image/png" [Byte.x89; Byte.x50]]))
          empty_world).1
     = Some (JStr (generateUniqueFilename "cat.png" (now sample_env) (random sample_env))).
Proof.
  pose proof (upload_reports_stored_name sample_env empty_world
    (Multipart [part "photo" "cat.png" "image/png" [Byte.x89; Byte.x50]])
    (part "photo" "cat.png" "image/png" [Byte.x89; Byte.x50])
    eq_refl eq_refl) as H.
  cbv zeta in H. destruct H as (_ & _ & H).
  split; [reflexivity | exact (proj1 (proj2 (H eq_refl)))].
Defined.

(** X10.  When the storage service fails, the upload of an acceptable file
    is answered 500 and stores nothing: with an error answer the message
    is the service's behind "Upload failed: ", and when the client call
    throws it is "Internal server error". *)
Theorem upload_upstream_failure env w b p :
  file_parts b = [p] -> acceptable "photo" p = true ->
  service env <> Reachable ->
  (app env (upload_request b) w).1
  = failure 500 match service env with
                | Failing m => "Upload failed: " +:+ m
                | _ => "Internal server error"
                end
  /\ bucket (app env (upload_request b) w).2 = bucket w.
Proof.
  intros Hp Hacc Hsvc.
  rewrite app_upload, (upload_single_one b p Hp Hacc).
  cbn [uploadHandler stored file_originalname file_buffer file_mimetype file_size].
  unfold storage_upload. destruct (service env); [contradiction | |]; split; reflexivity.
Qed.

Lemma upload_upstream_failure_witness :
  let env := {| now := 1735123456789; random := [Byte.x2a];
                service := Failing "Bucket not found";
                getPublicUrl := getPublicUrl sample_env;
                decodeURIComponent := decodeURIComponent sample_env |} in
  let b := Multipart [part "photo" "cat.png" "image/png" [Byte.x89; Byte.x50]] in
  (app env (upload_request b) empty_world).1
  = failure 500 "Upload failed: Bucket not found"
  /\ bucket (app env (upload_request b) empty_world).2 = bucket empty_world.
Proof.
  intros env b.
  apply (upload_upstream_failure env empty_world b
           (part "photo" "cat.png" "image/png" [Byte.x89; Byte.x50]));
    [reflexivity | reflexivity | discriminate].
Defined.

(** ** DELETE /delete/:filename *)

(** X13.  When the storage service fails, a deletion is answered 500 and
    removes nothing: with an error answer the message is the service's
    behind "Delete failed: ", and when the client call throws it is
    "Internal server error". *)
Theorem delete_upstream_failure env w filename :
  filename <> EmptyString -> service env <> Reachable ->
  (deleteHandler env filename w).1
  = failure 500 match service env with
                | Failing m => "Delete failed: " +:+ m
                | _ => "Internal server error"
                end
  /\ bucket (deleteHandler env filename w).2 = bucket w.
Proof.
  intros Hne Hsvc. unfold deleteHandler.
  rewrite (proj2 (String.eqb_neq _ _) Hne).
  unfold storage_remove. destruct (service env); [contradiction | |]; split; reflexivity.
Qed.

Lemma delete_upstream_failure_witness :
  let env := {| now := 0; random := []; service := Throwing;
                getPublicUrl := getPublicUrl sample_env;
                decodeURIComponent := decodeURIComponent sample_env |} in
  (deleteHandler env "cat.png" empty_world).1 = failure 500 "Internal server error"
  /\ bucket (deleteHandler env "cat.png" empty_world).2 = bucket empty_world.
Proof.
  intros env.
  apply (delete_upstream_failure env empty_world "cat.png"); discriminate.
Defined.

(** ** The route '/delete/:filename' *)

Lemma drop_final_slash_id s : contains "/" s = false -> drop_final_slash s = s.
Proof.
  induction s as [|c s IH]; [reflexivity|]. cbn [contains drop_final_slash].
  intros H. apply orb_false_iff in H as [Hc Hs].
  destruct s as [|d s]; [now rewrite Hc|]. now rewrite (IH Hs).
Qed.

Lemma drop_final_slash_added s : drop_final_slash (s +:+ "/") = s.
Proof.
  induction s as [|c s IH]; [reflexivity|].
  cbn [String.append drop_final_slash]. rewrite IH.
  destruct s; reflexivity.
Qed.

Lemma match_delete_prefixed (rest : string) :
  match_delete ("/delete/" +:+ rest)
  = if String.eqb (drop_final_slash rest) "" || contains "/" (drop_final_slash rest)
    then None else Some (drop_final_slash rest).
Proof.
  unfold match_delete.
  replace (startsWith "/delete/" (lower_string ("/delete/" +:+ rest))) with true
    by (cbn; now destruct (lower_string rest)).
  cbn [String.append String.length Nat.sub String.substring].
  now rewrite Nat.sub_0_r, substring0_all.
Qed.

Lemma match_delete_segment segment :
  segment <> EmptyString -> contains "/" segment = false ->
  match_delete ("/delete/" +:+ segment) = Some segment.
Proof.
  intros Hne Hslash. rewrite match_delete_prefixed, (drop_final_slash_id _ Hslash).
  now rewrite (proj2 (String.eqb_neq _ _) Hne), Hslash.
Qed.

(** X14.  The delete route hands the handler the decoded path segment.
    For a DELETE request let through by [express.json()] whose path is
    [/delete/segment] or [/delete/segment/], with [segment] non-empty and
    free of ['/'], the answer is the delete handler's on
    [decodeURIComponent(segment)]; and when the decoding throws, the
    answer is 500 with the error "Failed to decode param 'segment'" and
    the gateway is not called. *)
Theorem delete_route_captures env req w segment :
  method req = DELETE -> express_json req = Continue tt ->
  segment <> EmptyString -> contains "/" segment = false ->
  path req = "/delete/" +:+ segment \/ path req = "/delete/" +:+ segment +:+ "/" ->
  app env req w
  = match decodeURIComponent env segment with
    | Some filename => deleteHandler env filename w
    | None => (failure 500 ("Failed to decode param '" +:+ segment +:+ "'"), w)
    end.
Proof.
  intros Hm Hjson Hne Hslash Hpath.
  assert (Hseg : match_delete (path req) = Some segment).
  { destruct Hpath as [-> | ->]; [now apply match_delete_segment|].
    rewrite match_delete_prefixed, drop_final_slash_added.
    now rewrite (proj2 (String.eqb_neq _ _) Hne), Hslash. }
  unfold app, routes, finish. rewrite Hm, Hjson, Hseg.
  destruct (decodeURIComponent env segment) as [filename|]; [|reflexivity].
  now destruct (deleteHandler env filename w).
Qed.

Lemma delete_route_captures_witness :
  app sample_env
      {| method := DELETE;
         path := "/delete/a1b2c3d4_00ff10ab01020304_1735123456789.jpg/";
         reqBody := NotMultipart; rejection := None; fresh := false |}
      empty_world
  = deleteHandler sample_env "a1b2c3d4_00ff10ab01020304_1735123456789.jpg" empty_world.
Proof.
  apply (delete_route_captures sample_env
           {| method := DELETE;
              path := "/delete/a1b2c3d4_00ff10ab01020304_1735123456789.jpg/";
              reqBody := NotMultipart; rejection := None; fresh := false |}
           empty_world "a1b2c3d4_00ff10ab01020304_1735123456789.jpg");
    [reflexivity | reflexivity | discriminate | reflexivity | right; reflexivity].
Defined.

(** ** The shape of every answer *)








(** ** The timestamp of GET /health *)

Lemma digits_pad_exact (k : nat) (n : N) (rest : string) :
  n < 10 ^ N.of_nat k ->
  ISO8601.digits k 0 (Date.pad k n +:+ rest) = Some (n, rest).
Proof.
  intros Hn. replace k with (k + 0)%nat at 1 by lia.
  rewrite digits_pad. cbn [ISO8601.digits].
  now rewrite N.mod_small, N.mul_0_l, N.add_0_l by exact Hn.
Qed.

Lemma year_string_unsigned (y : N) (rest : string) :
  startsWith "-" (Date.year_string y +:+ rest) = false.
Proof.
  unfold Date.year_string. destruct (y <=? 9999); [|reflexivity].
  destruct (pad_first 3 y rest) as (c & tail & E & _ & Hsign).
  rewrite E. apply orb_false_iff in Hsign as [_ Hminus].
  apply Ascii.eqb_neq in Hminus. unfold startsWith. cbn [String.prefix].
  destruct (ascii_dec "-" c) as [<- | _]; [contradiction | reflexivity].
Qed.

(** The fields of a time value add up to it. *)
Lemma time_fields (t : N) :
  Date.Day t * Date.msPerDay + Date.HourFromTime t * 3600000
  + Date.MinFromTime t * 60000 + Date.SecFromTime t * 1000 + Date.msFromTime t = t.
Proof.
  unfold Date.Day, Date.msPerDay, Date.HourFromTime, Date.MinFromTime,
    Date.SecFromTime, Date.msFromTime.
  lia.
Qed.

Lemma toISOString_read_back (t : N) :
  t <= Date.maxTime ->
  exists timestamp, Date.toISOString t = Some timestamp /\ read_iso timestamp = Some t.
Proof.
  intros Ht. unfold Date.toISOString.
  rewrite (proj2 (N.leb_le _ _) Ht).
  assert (Hdays : Date.Day t <= 100000000).
  { unfold Date.Day, Date.msPerDay. unfold Date.maxTime in Ht. lia. }
  pose proof (civil_from_days_range _ Hdays) as Hrange.
  pose proof (civil_from_days_correct (Date.Day t)) as Hciv.
  destruct (Date.civil_from_days (Date.Day t)) as [[y m] d].
  destruct Hrange as (Hy & Hm & Hd). destruct Hciv as (_ & _ & _ & Hsum).
  eexists; split; [reflexivity|].
  unfold read_iso. rewrite year_string_unsigned.
  rewrite year_string_read by exact Hy.
  cbn [mbind option_bind fst snd ISO8601.expect String.append].
  rewrite Ascii.eqb_refl. cbn [mbind option_bind].
  rewrite digits_pad_exact by (change (10 ^ N.of_nat 2) with 100; lia).
  cbn [mbind option_bind fst snd ISO8601.expect String.append].
  rewrite Ascii.eqb_refl. cbn [mbind option_bind].
  rewrite digits_pad_exact by (change (10 ^ N.of_nat 2) with 100; lia).
  cbn [mbind option_bind fst snd ISO8601.expect String.append].
  rewrite Ascii.eqb_refl. cbn [mbind option_bind].
  rewrite digits_pad_exact
    by (change (10 ^ N.of_nat 2) with 100; unfold Date.HourFromTime; lia).
  cbn [mbind option_bind fst snd ISO8601.expect String.append].
  rewrite Ascii.eqb_refl. cbn [mbind option_bind].
  rewrite digits_pad_exact
    by (change (10 ^ N.of_nat 2) with 100; unfold Date.MinFromTime; lia).
  cbn [mbind option_bind fst snd ISO8601.expect String.append].
  rewrite Ascii.eqb_refl. cbn [mbind option_bind].
  rewrite digits_pad_exact
    by (change (10 ^ N.of_nat 2) with 100; unfold Date.SecFromTime; lia).
  cbn [mbind option_bind fst snd ISO8601.expect String.append].
  rewrite Ascii.eqb_refl. cbn [mbind option_bind].
  rewrite digits_pad_exact
    by (change (10 ^ N.of_nat 3) with 1000; unfold Date.msFromTime; lia).
  cbn [mbind option_bind fst snd ISO8601.expect String.append].
  rewrite Ascii.eqb_refl. cbn [mbind option_bind String.eqb].
  f_equal.
  replace (Date.DayFromYear y + Date.DaysBeforeMonth m (Date.InLeapYear y) + d - 1)
    with (Date.Day t) by lia.
  apply time_fields.
Qed.

(** X17.  The timestamp of the health answer is the server clock, to the
    millisecond and in UTC.  For a clock between the epoch (1 January
    1970) and the largest time a Date can hold, and a GET /health request
    that [express.json()] lets through and that is not answered 304: the
    timestamp, read back as an ISO-8601 date-time (each field counted with
    the ECMAScript calendar), gives exactly the time value the handler
    read; and the health check leaves the storage untouched. *)
Theorem health_timestamp_is_clock env req w :
  method req = GET -> route_matches "/health" (path req) = true ->
  express_json req = Continue tt -> fresh req = false ->
  now env <= Date.maxTime ->
  exists timestamp,
    top_field "timestamp" (app env req w).1 = Some (JStr timestamp)
    /\ read_iso timestamp = Some (now env)
    /\ (app env req w).2 = w.
Proof.
  intros Hget Hroute Hjson Hfresh Hnow.
  destruct (toISOString_read_back (now env) Hnow) as (timestamp & Hiso & Hread).
  exists timestamp. unfold app, routes, finish.
  rewrite Hget, Hjson, Hroute, Hfresh. unfold health. rewrite Hiso.
  repeat split; [exact Hread].
Qed.

Lemma health_timestamp_is_clock_witness :
  exists timestamp,
    top_field "timestamp"
      (app sample_env
           {| method := GET; path := "/health/"; reqBody := NotMultipart;
              rejection := None; fresh := false |}
           empty_world).1 = Some (JStr timestamp)
    /\ read_iso timestamp = Some (now sample_env)
    /\ (app sample_env
            {| method := GET; path := "/health/"; reqBody := NotMultipart;
               rejection := None; fresh := false |}
            empty_world).2 = empty_world.
Proof.
  apply (health_timestamp_is_clock sample_env
           {| method := GET; path := "/health/"; reqBody := NotMultipart;
              rejection := None; fresh := false |} empty_world);
    [reflexivity | reflexivity | reflexivity | reflexivity | vm_compute; discriminate].
Defined.

Example read_iso_example : read_iso "2024-12-25T10:44:16.789Z" = Some 1735123456789.
Proof. vm_compute. reflexivity. Qed.
